(** * mic-to-morse-code: the timing decoder and its sentence

    A shallow embedding of the class [MicToMorseCode] of
    [src/mic-to-morse.ts].  JavaScript numbers are IEEE 754 binary64 values:
    they are Rocq's primitive floats, with the same subtraction and the same
    comparisons ([x > y] is [y <? x]).  Strings are [string]; the sentence
    only ever receives the ASCII symbols the class appends.  The four
    callbacks of the [events] table are opaque to the class: a call of one
    of them is recorded, with its arguments, at the end of the log [fired].
    The microphone, the meter and the interval timer are outside the class:
    a tick of the timer is a call of [onMicTime] with the meter's time and
    level. *)

From Stdlib Require Import Bool List String Ascii ZArith Lia.
From Stdlib Require Import Floats.
Import ListNotations.

#[local] Set Warnings "-inexact-float".
#[local] Open Scope string_scope.

(** ** The JavaScript string operations the class uses *)

Module Js.

(** [s[s.length - 1]]: [undefined] ([None]) on the empty string, otherwise
    the one-character string at the last index. *)
Definition lastIndex (s : string) : option string :=
  match String.length s with
  | O => None
  | S n => Some (substring n 1 s)
  end.

(** [x === y] for [x] a string or [undefined] and [y] a string. *)
Definition strictEq (x : option string) (y : string) : bool :=
  match x with
  | Some a => String.eqb a y
  | None => false
  end.

(** [s.split(sep)] for a string separator.  [skip] counts the characters of
    a separator just matched that are still to be passed over, [seg] is the
    segment being collected. *)
Fixpoint splitFrom (sep : string) (skip : nat) (seg s : string) : list string :=
  match s with
  | EmptyString => [seg]
  | String c s' =>
      match skip with
      | S k => splitFrom sep k seg s'
      | O =>
          if String.prefix sep s
          then seg :: splitFrom sep (String.length sep - 1) "" s'
          else splitFrom sep 0 (seg ++ String c "") s'
      end
  end.

Definition split (s sep : string) : list string :=
  match sep with
  | EmptyString => map (fun c => String c "") (list_ascii_of_string s)
  | _ => splitFrom sep 0 "" s
  end.

(** [a[a.length - 1]], [undefined] on the empty array. *)
Definition lastElement (a : list string) : option string :=
  nth_error a (List.length a - 1).

(** [a.pop()]: the element removed and the array left. *)
Definition pop (a : list string) : option string * list string :=
  (lastElement a, removelast a).

(** The characters [.] does not match (those of them a byte can hold). *)
Definition isLineTerminator (c : ascii) : bool :=
  (Ascii.eqb c "010" || Ascii.eqb c "013")%bool.

(** [s.replace(/.$/, '')]: the pattern can only match the last character,
    and does when that is not a line terminator. *)
Fixpoint replaceLastChar (s : string) : string :=
  match s with
  | EmptyString => EmptyString
  | String c EmptyString => if isLineTerminator c then s else EmptyString
  | String c s' => String c (replaceLastChar s')
  end.

End Js.

(** ** The class *)

Inductive AudioState : Type :=
| NotListening
| ListeningNoSound
| ListeningSound
| DotLength
| DashLength
| CharacterDelimiterLength
| WordDelimiterLength.

Inductive ListeningState : Type :=
| NoSound
| Sound.

Definition AudioState_eqb (a b : AudioState) : bool :=
  match a, b with
  | NotListening, NotListening
  | ListeningNoSound, ListeningNoSound
  | ListeningSound, ListeningSound
  | DotLength, DotLength
  | DashLength, DashLength
  | CharacterDelimiterLength, CharacterDelimiterLength
  | WordDelimiterLength, WordDelimiterLength => true
  | _, _ => false
  end.

(** A call of one of the four handlers of [events], with its arguments. *)
Inductive event : Type :=
| OnAudioStateChange (current previous : AudioState)
| OnChange (current previous : string)
| OnCharacterEnd (segment : option string)
| OnWordEnd (segment : option string).

Record MicToMorseCode : Type := mkMicToMorseCode {
  currentAudioState : AudioState;
  lastState : ListeningState;
  fired : list event;
  soundStartTime : float;
  soundStopTime : float;
  morseSentence : string;
  threshold : float;
  audioTimeResolution : float;
  dotTime : float;
  dashTime : float;
  characterTime : float;
  wordTime : float;
  debounceTime : float
}.

(** The two delimiter fields are initialised and never assigned. *)
Definition characterDelimiter : string := " ".
Definition wordDelimiter : string := "/".

(** The constructor, all seven arguments given. *)
Definition new (threshold audioTimeResolution dotTime dashTime characterTime
                wordTime debounceTime : float) : MicToMorseCode :=
  {| currentAudioState := NotListening;
     lastState := NoSound;
     fired := [];
     soundStartTime := 0;
     soundStopTime := 0;
     morseSentence := "";
     threshold := threshold;
     audioTimeResolution := audioTimeResolution;
     dotTime := dotTime;
     dashTime := dashTime;
     characterTime := characterTime;
     wordTime := wordTime;
     debounceTime := debounceTime |}.

(** The constructor's defaults, from the dot time. *)
Definition newDefault (threshold audioTimeResolution dotTime : float) : MicToMorseCode :=
  new threshold audioTimeResolution dotTime
      (dotTime * 3) (dotTime * 4) (dotTime * 6) (dotTime / 2).

(** Field assignments. *)
Section Assign.
Variable m : MicToMorseCode.

Definition set_currentAudioState (v : AudioState) : MicToMorseCode :=
  mkMicToMorseCode v (lastState m) (fired m) (soundStartTime m)
    (soundStopTime m) (morseSentence m) (threshold m) (audioTimeResolution m)
    (dotTime m) (dashTime m) (characterTime m) (wordTime m) (debounceTime m).

Definition set_lastState (v : ListeningState) : MicToMorseCode :=
  mkMicToMorseCode (currentAudioState m) v (fired m) (soundStartTime m)
    (soundStopTime m) (morseSentence m) (threshold m) (audioTimeResolution m)
    (dotTime m) (dashTime m) (characterTime m) (wordTime m) (debounceTime m).

Definition set_fired (v : list event) : MicToMorseCode :=
  mkMicToMorseCode (currentAudioState m) (lastState m) v (soundStartTime m)
    (soundStopTime m) (morseSentence m) (threshold m) (audioTimeResolution m)
    (dotTime m) (dashTime m) (characterTime m) (wordTime m) (debounceTime m).

Definition set_soundStartTime (v : float) : MicToMorseCode :=
  mkMicToMorseCode (currentAudioState m) (lastState m) (fired m) v
    (soundStopTime m) (morseSentence m) (threshold m) (audioTimeResolution m)
    (dotTime m) (dashTime m) (characterTime m) (wordTime m) (debounceTime m).

Definition set_soundStopTime (v : float) : MicToMorseCode :=
  mkMicToMorseCode (currentAudioState m) (lastState m) (fired m)
    (soundStartTime m) v (morseSentence m) (threshold m)
    (audioTimeResolution m) (dotTime m) (dashTime m) (characterTime m)
    (wordTime m) (debounceTime m).

Definition set_morseSentence (v : string) : MicToMorseCode :=
  mkMicToMorseCode (currentAudioState m) (lastState m) (fired m)
    (soundStartTime m) (soundStopTime m) v (threshold m)
    (audioTimeResolution m) (dotTime m) (dashTime m) (characterTime m)
    (wordTime m) (debounceTime m).

Definition setThreshold (v : float) : MicToMorseCode :=
  mkMicToMorseCode (currentAudioState m) (lastState m) (fired m)
    (soundStartTime m) (soundStopTime m) (morseSentence m) v
    (audioTimeResolution m) (dotTime m) (dashTime m) (characterTime m)
    (wordTime m) (debounceTime m).

Definition setAudioTimeResolution (v : float) : MicToMorseCode :=
  mkMicToMorseCode (currentAudioState m) (lastState m) (fired m)
    (soundStartTime m) (soundStopTime m) (morseSentence m) (threshold m) v
    (dotTime m) (dashTime m) (characterTime m) (wordTime m) (debounceTime m).

Definition setDotTime (v : float) : MicToMorseCode :=
  mkMicToMorseCode (currentAudioState m) (lastState m) (fired m)
    (soundStartTime m) (soundStopTime m) (morseSentence m) (threshold m)
    (audioTimeResolution m) v (dashTime m) (characterTime m) (wordTime m)
    (debounceTime m).

Definition setDashTime (v : float) : MicToMorseCode :=
  mkMicToMorseCode (currentAudioState m) (lastState m) (fired m)
    (soundStartTime m) (soundStopTime m) (morseSentence m) (threshold m)
    (audioTimeResolution m) (dotTime m) v (characterTime m) (wordTime m)
    (debounceTime m).

Definition setCharacterTime (v : float) : MicToMorseCode :=
  mkMicToMorseCode (currentAudioState m) (lastState m) (fired m)
    (soundStartTime m) (soundStopTime m) (morseSentence m) (threshold m)
    (audioTimeResolution m) (dotTime m) (dashTime m) v (wordTime m)
    (debounceTime m).

Definition setWordTime (v : float) : MicToMorseCode :=
  mkMicToMorseCode (currentAudioState m) (lastState m) (fired m)
    (soundStartTime m) (soundStopTime m) (morseSentence m) (threshold m)
    (audioTimeResolution m) (dotTime m) (dashTime m) (characterTime m) v
    (debounceTime m).

Definition setDebounceTime (v : float) : MicToMorseCode :=
  mkMicToMorseCode (currentAudioState m) (lastState m) (fired m)
    (soundStartTime m) (soundStopTime m) (morseSentence m) (threshold m)
    (audioTimeResolution m) (dotTime m) (dashTime m) (characterTime m)
    (wordTime m) v.

(** [this.events[name](...)]: the handler is called. *)
Definition fire (e : event) : MicToMorseCode :=
  set_fired (fired m ++ [e]).
End Assign.

Definition emitSentenceChangeEvent (m : MicToMorseCode) (current previous : string)
  : MicToMorseCode :=
  fire m (OnChange current previous).

Definition emitAudioStateChangeEvent (m : MicToMorseCode) (current previous : AudioState)
  : MicToMorseCode :=
  fire m (OnAudioStateChange current previous).

(** [if (!characters) return] never returns: an array is truthy. *)
Definition emitCharacterEndEvent (m : MicToMorseCode) : MicToMorseCode :=
  let characters := Js.split (morseSentence m) characterDelimiter in
  fire m (OnCharacterEnd (Js.lastElement characters)).

Definition emitWordEndEvent (m : MicToMorseCode) : MicToMorseCode :=
  let word := Js.split (morseSentence m) wordDelimiter in
  fire m (OnWordEnd (Js.lastElement word)).

Definition clearSentence (m : MicToMorseCode) : MicToMorseCode :=
  let previous := morseSentence m in
  let m := set_morseSentence m "" in
  emitSentenceChangeEvent m (morseSentence m) previous.

(** [split(...).pop()] works on the array [split] returns; its result is
    dropped and [morseSentence] is not assigned. *)
Definition deleteCharacter (m : MicToMorseCode) : MicToMorseCode :=
  let previous := morseSentence m in
  let _ := Js.pop (Js.split (morseSentence m) characterDelimiter) in
  emitSentenceChangeEvent m (morseSentence m) previous.

Definition deleteWord (m : MicToMorseCode) : MicToMorseCode :=
  let previous := morseSentence m in
  let _ := Js.pop (Js.split (morseSentence m) wordDelimiter) in
  emitSentenceChangeEvent m (morseSentence m) previous.

Definition getMorseString (m : MicToMorseCode) : string :=
  morseSentence m.

Definition changeAudioState (m : MicToMorseCode) (state : AudioState) : MicToMorseCode :=
  let previous := currentAudioState m in
  if AudioState_eqb previous state then m
  else
    let m := set_currentAudioState m state in
    emitAudioStateChangeEvent m state previous.

(** The class's part of [stopMicrophone]; the timer and the source are
    released outside it. *)
Definition stopMicrophone (m : MicToMorseCode) : MicToMorseCode :=
  changeAudioState m NotListening.

(** The class's part of [startMicrophone], once the source has opened: the
    timer it starts is the later calls of [onMicTime]. *)
Definition startMicrophone (m : MicToMorseCode) : MicToMorseCode :=
  changeAudioState m ListeningNoSound.

Definition wasSound (m : MicToMorseCode) : bool :=
  match lastState m with Sound => true | NoSound => false end.

Definition wasNoSound (m : MicToMorseCode) : bool :=
  match lastState m with NoSound => true | Sound => false end.

Definition removeLastLetterFromMorse (m : MicToMorseCode) : MicToMorseCode :=
  set_morseSentence m (Js.replaceLastChar (morseSentence m)).

Definition isDelimiter (character : option string) : bool :=
  (Js.strictEq character wordDelimiter || Js.strictEq character characterDelimiter)%bool.

Definition addCharacter (m : MicToMorseCode) (character : string) : MicToMorseCode :=
  let previous := morseSentence m in
  let m := set_morseSentence m (morseSentence m ++ character) in
  let m := if String.eqb character wordDelimiter then emitWordEndEvent m else m in
  let m := if String.eqb character characterDelimiter then emitCharacterEndEvent m else m in
  emitSentenceChangeEvent m (morseSentence m) previous.

Definition logStartTime (m : MicToMorseCode) (currentTime : float) : MicToMorseCode :=
  if (currentTime - soundStopTime m <? debounceTime m)%float then m
  else if wasSound m then
    let onTime := (currentTime - soundStartTime m)%float in
    if (dashTime m <? onTime)%float then changeAudioState m DashLength
    else if (dotTime m <? onTime)%float then changeAudioState m DotLength
    else m
  else
    let m := changeAudioState m ListeningSound in
    let m := set_lastState m Sound in
    set_soundStartTime m currentTime.

Definition logEndTime (m : MicToMorseCode) (currentTime : float) : MicToMorseCode :=
  if (currentTime - soundStartTime m <? debounceTime m)%float then m
  else
    let offTime := (currentTime - soundStopTime m)%float in
    let lastCharacter := Js.lastIndex (morseSentence m) in
    if (wasNoSound m && (wordTime m <? offTime)%float)%bool then
      let m := changeAudioState m WordDelimiterLength in
      if Nat.eqb (String.length (morseSentence m)) 0 then m
      else if Js.strictEq lastCharacter wordDelimiter then m
      else
        let m := if Js.strictEq lastCharacter characterDelimiter
                 then removeLastLetterFromMorse m else m in
        addCharacter m wordDelimiter
    else if (wasNoSound m && (characterTime m <? offTime)%float)%bool then
      let m := changeAudioState m CharacterDelimiterLength in
      if Nat.eqb (String.length (morseSentence m)) 0 then m
      else if isDelimiter lastCharacter then m
      else addCharacter m characterDelimiter
    else if wasNoSound m then changeAudioState m ListeningNoSound
    else if wasSound m then
      let m := set_soundStopTime m currentTime in
      let m := set_lastState m NoSound in
      let onTime := (currentTime - soundStartTime m)%float in
      if (dashTime m <? onTime)%float then addCharacter m "-"
      else if (dotTime m <? onTime)%float then addCharacter m "."
      else m
    else m.

(** The timer's callback, given the meter's time and level. *)
Definition onMicTime (m : MicToMorseCode) (currentTime level : float) : MicToMorseCode :=
  if (threshold m <? level)%float then logStartTime m currentTime
  else logEndTime m currentTime.

(** ** Runs of the class *)

(** What can be done to an instance from outside: the public methods, and a
    tick of the timer. *)
Inductive call : Type :=
| Tick (currentTime level : float)
| ClearSentence
| DeleteCharacter
| DeleteWord
| StartMicrophone
| StopMicrophone
| SetThreshold (v : float)
| SetAudioTimeResolution (v : float)
| SetDotTime (v : float)
| SetDashTime (v : float)
| SetCharacterTime (v : float)
| SetWordTime (v : float)
| SetDebounceTime (v : float).

Definition perform (m : MicToMorseCode) (c : call) : MicToMorseCode :=
  match c with
  | Tick currentTime level => onMicTime m currentTime level
  | ClearSentence => clearSentence m
  | DeleteCharacter => deleteCharacter m
  | DeleteWord => deleteWord m
  | StartMicrophone => startMicrophone m
  | StopMicrophone => stopMicrophone m
  | SetThreshold v => setThreshold m v
  | SetAudioTimeResolution v => setAudioTimeResolution m v
  | SetDotTime v => setDotTime m v
  | SetDashTime v => setDashTime m v
  | SetCharacterTime v => setCharacterTime m v
  | SetWordTime v => setWordTime m v
  | SetDebounceTime v => setDebounceTime m v
  end.

Definition performAll (m : MicToMorseCode) (cs : list call) : MicToMorseCode :=
  fold_left perform cs m.

(** [meter.getValue() > this.threshold]: the sample carries signal. *)
Definition signalPresent (m : MicToMorseCode) (level : float) : bool :=
  (threshold m <? level)%float.

(** The states an instance can be in: those a constructor call followed by
    any calls leads to. *)
Inductive reachable : MicToMorseCode -> Prop :=
| reachable_new (threshold audioTimeResolution dotTime dashTime characterTime
                 wordTime debounceTime : float) :
    reachable (new threshold audioTimeResolution dotTime dashTime characterTime
                   wordTime debounceTime)
| reachable_perform (m : MicToMorseCode) (c : call) :
    reachable m -> reachable (perform m c).

(** The class has no [throw], and keeps no record of the last timestamp it
    was given: a tick of the timer completes normally. *)
Inductive error : Type :=
| OrderingError.

Inductive completion : Type :=
| Returns (m : MicToMorseCode)
| Throws (e : error).

Definition deliver (m : MicToMorseCode) (currentTime level : float) : completion :=
  Returns (onMicTime m currentTime level).

Fixpoint deliverAll (m : MicToMorseCode) (samples : list (float * float)) : completion :=
  match samples with
  | [] => Returns m
  | s :: rest =>
      match deliver m (fst s) (snd s) with
      | Returns m' => deliverAll m' rest
      | Throws e => Throws e
      end
  end.

(** ** Vocabulary of the properties *)

Definition isSymbolChar (c : ascii) : bool :=
  (Ascii.eqb c "." || Ascii.eqb c "-")%bool.

Definition isDelimiterChar (c : ascii) : bool :=
  (Ascii.eqb c " " || Ascii.eqb c "/")%bool.

(** Reads a sentence from the left, [prev] being the character before it:
    [None] when a character is neither symbol nor delimiter or a delimiter
    does not follow a symbol, otherwise the last character read. *)
Fixpoint scan (prev : option ascii) (s : string) : option (option ascii) :=
  match s with
  | EmptyString => Some prev
  | String c s' =>
      if isSymbolChar c then scan (Some c) s'
      else if isDelimiterChar c then
        match prev with
        | Some p => if isSymbolChar p then scan (Some c) s' else None
        | None => None
        end
      else None
  end.

Definition wellDelimited (s : string) : Prop :=
  scan None s <> None.

Definition EndsWith (s suffix : string) : Prop :=
  exists p : string, s = p ++ suffix.

(** The arguments of the calls of the character-end handler, in order. *)
Fixpoint characterEnds (es : list event) : list (option string) :=
  match es with
  | [] => []
  | OnCharacterEnd segment :: es' => segment :: characterEnds es'
  | _ :: es' => characterEnds es'
  end.

(** An audio-state-change call reports two different states. *)
Definition reportsChange (e : event) : Prop :=
  match e with
  | OnAudioStateChange current previous => current <> previous
  | _ => True
  end.

(** The log [new] is the log [old] with further calls at its end, each
    audio-state-change call among them reporting two different states. *)
Definition onlyChanges (old new : list event) : Prop :=
  exists es : list event, new = (old ++ es)%list /\ Forall reportsChange es.

(** The timer's ticks for a list of (time, level) samples. *)
Definition ticksOf (samples : list (float * float)) : list call :=
  map (fun s => Tick (fst s) (snd s)) samples.

(** ** The worked configuration and its sample trains *)

(** [n] ticks of the timer at times [k/20], [(k+1)/20], ... with the meter at
    [level]: one tick every 50 ms, the default [audioTimeResolution]. *)
Fixpoint ticks (level k : float) (n : nat) : list call :=
  match n with
  | O => []
  | S n' => Tick (k / 20) level :: ticks level (k + 1) n'
  end.

Definition loud : float := 0.
Definition quiet : float := (-100).

(** dotTime 0.5, dashTime 1.5, characterTime 2.0, wordTime 3.0, debounceTime
    0.25, with the default threshold and resolution. *)
Definition worked : MicToMorseCode :=
  new (-50) 50 0.5 1.5 2.0 3.0 0.25.

(** Signal from t = 0 to t = 0.55, silence from t = 0.6 to t = 2.5. *)
Definition shortTone : list call :=
  ticks loud 0 12 ++ ticks quiet 12 39.

(** The same tone with the tick at t = 0.6 still carrying signal. *)
Definition shortToneInclusive : list call :=
  ticks loud 0 13 ++ ticks quiet 13 38.

(** The same tone seen through its four end points only. *)
Definition shortToneEndPoints : list call :=
  [Tick 0 loud; Tick 0.6 loud; Tick 0.6 quiet; Tick 2.5 quiet].

(** Signal from t = 0 to t = 0.85, silence from t = 0.9 to t = 2.95. *)
Definition dotThenGap : list call :=
  ticks loud 0 18 ++ ticks quiet 18 42.

(** ... the silence going on to t = 3.95. *)
Definition dotThenLongGap : list call :=
  dotThenGap ++ ticks quiet 60 20.

(** ... then signal from t = 4 to t = 4.95. *)
Definition dotGapTone : list call :=
  dotThenLongGap ++ ticks loud 80 20.

(** Signal to t = 0.85, silence to t = 2.95, signal to t = 3.85 and one
    silent tick at t = 3.9. *)
Definition dotGapDot : list call :=
  dotThenGap ++ ticks loud 60 18 ++ ticks quiet 78 1.

(** ... and one silent tick at t = 5. *)
Definition dotWordDot : list call :=
  dotGapTone ++ ticks quiet 100 1.

(** Out of order: signal at t = 1, silence at t = 4, then silence at t = 2. *)
Definition backwards : list (float * float) :=
  [(1, loud); (4, quiet); (2, quiet)]%float.

(** Three more samples without signal, at t = 4, t = 4.5 and t = 10. *)
Definition laterSilence : list (float * float) :=
  [(4, quiet); (4.5, quiet); (10, quiet)]%float.

(** ** Vocabulary of the further properties *)

Definition isAudioEvent (e : event) : Prop :=
  match e with
  | OnAudioStateChange _ _ => True
  | _ => False
  end.

(** A character-end or word-end call whose argument is the empty string. *)
Definition emptySegment (e : event) : Prop :=
  match e with
  | OnCharacterEnd segment | OnWordEnd segment => segment = Some ""
  | _ => True
  end.

(** The log [new] is the log [old] with further calls at its end, all of
    them in [P]. *)
Definition growsBy (P : event -> Prop) (old new : list event) : Prop :=
  exists es : list event, new = (old ++ es)%list /\ Forall P es.

(** The arguments of the calls of the word-end handler, in order. *)
Fixpoint wordEnds (es : list event) : list (option string) :=
  match es with
  | [] => []
  | OnWordEnd segment :: es' => segment :: wordEnds es'
  | _ :: es' => wordEnds es'
  end.

(** What a listener of the change handler holds after the calls [es], having
    held [held] before: the [current] of the last call. *)
Fixpoint lastChangeFrom (held : option string) (es : list event) : option string :=
  match es with
  | [] => held
  | OnChange current _ :: es' => lastChangeFrom (Some current) es'
  | _ :: es' => lastChangeFrom held es'
  end.

Definition lastChange (es : list event) : option string :=
  lastChangeFrom None es.

(** What a listener of the audio-state handler holds after the calls [es],
    having held [held] before: each call must give as [previous] the state
    held, and [current] is held after it; [None] when a call does not. *)
Fixpoint replayAudio (held : AudioState) (es : list event) : option AudioState :=
  match es with
  | [] => Some held
  | OnAudioStateChange current previous :: es' =>
      if AudioState_eqb previous held then replayAudio current es' else None
  | _ :: es' => replayAudio held es'
  end.

(** The assignments and private calls the public methods are made of; the
    removal of a trailing character delimiter comes with the append that
    follows it. *)
Inductive primitive : MicToMorseCode -> MicToMorseCode -> Prop :=
| p_changeAudioState m state : primitive m (changeAudioState m state)
| p_addCharacter m character : primitive m (addCharacter m character)
| p_replaceDelimiter m :
    primitive m (addCharacter (removeLastLetterFromMorse m) wordDelimiter)
| p_lastState m v : primitive m (set_lastState m v)
| p_soundStartTime m v : primitive m (set_soundStartTime m v)
| p_soundStopTime m v : primitive m (set_soundStopTime m v)
| p_clearSentence m : primitive m (clearSentence m)
| p_deleteCharacter m : primitive m (deleteCharacter m)
| p_deleteWord m : primitive m (deleteWord m)
| p_setThreshold m v : primitive m (setThreshold m v)
| p_setAudioTimeResolution m v : primitive m (setAudioTimeResolution m v)
| p_setDotTime m v : primitive m (setDotTime m v)
| p_setDashTime m v : primitive m (setDashTime m v)
| p_setCharacterTime m v : primitive m (setCharacterTime m v)
| p_setWordTime m v : primitive m (setWordTime m v)
| p_setDebounceTime m v : primitive m (setDebounceTime m v).

Inductive evolves : MicToMorseCode -> MicToMorseCode -> Prop :=
| evolves_refl m : evolves m m
| evolves_step m1 m2 m3 : evolves m1 m2 -> primitive m2 m3 -> evolves m1 m3.

(** A tone in progress since t = 0.25 (signal from t = 0 to t = 0.85). *)
Definition duringTone : MicToMorseCode :=
  performAll worked (ticks loud 0 18).

(** A dot in the sentence, and silence since t = 0.9 (up to t = 1.4). *)
Definition afterDot : MicToMorseCode :=
  performAll worked (ticks loud 0 18 ++ ticks quiet 18 11).


(** ** Binary64 order

    The comparisons of primitive floats are those of their specification
    [SFcompare]; the facts below are what the thresholds need. *)

Section FloatOrder.

Ltac to_positive_order :=
  change IntDef.Z.compare with Z.compare in *;
  change (PosDef.Pos.compare_cont Eq) with Pos.compare in *.

Lemma SFcompare_antisym (x y : spec_float) :
  SFcompare y x = option_map CompOpp (SFcompare x y).
Proof.
  destruct x as [sx|sx| |sx mx ex], y as [sy|sy| |sy my ey]; simpl;
    try reflexivity; try (destruct sx; reflexivity);
    try (destruct sy; reflexivity); try (destruct sx, sy; reflexivity).
  to_positive_order.
  rewrite (Z.compare_antisym ex ey), (Pos.compare_antisym mx my).
  destruct sx, sy; try reflexivity;
    destruct (Z.compare ex ey); simpl; try reflexivity.
  all: try (destruct (Pos.compare mx my); reflexivity).
Qed.

Ltac by_cases x y z :=
  destruct x as [?sx|?sx| |?sx ?mx ?ex], y as [?sy|?sy| |?sy ?my ?ey],
           z as [?sz|?sz| |?sz ?mz ?ez];
  simpl; try discriminate; try reflexivity;
  repeat match goal with
         | b : bool |- _ => destruct b; simpl; try discriminate; try reflexivity
         end;
  to_positive_order;
  match goal with
  | |- context [Z.compare ?a ?b] =>
      match goal with
      | |- context [Z.compare b ?c] =>
          destruct (Z.compare_spec a b); destruct (Z.compare_spec b c);
          destruct (Z.compare_spec a c)
      end
  end;
  try lia; try discriminate; try reflexivity; subst;
  match goal with
  | |- context [Pos.compare ?a ?b] =>
      match goal with
      | |- context [Pos.compare b ?c] =>
          destruct (Pos.compare_spec a b); destruct (Pos.compare_spec b c);
          destruct (Pos.compare_spec a c)
      end
  end;
  simpl; try lia; try discriminate; try reflexivity.

Lemma SFleb_trans (x y z : spec_float) :
  SFleb x y = true -> SFleb y z = true -> SFleb x z = true.
Proof. unfold SFleb. by_cases x y z. Qed.

Lemma SFltb_leb_trans (x y z : spec_float) :
  SFltb x y = true -> SFleb y z = true -> SFltb x z = true.
Proof. unfold SFleb, SFltb. by_cases x y z. Qed.

Lemma SFleb_not_gt (x y : spec_float) :
  SFleb x y = true -> SFltb y x = false.
Proof.
  unfold SFleb, SFltb. rewrite (SFcompare_antisym x y).
  destruct (SFcompare x y) as [[ | | ]|]; simpl; congruence.
Qed.

(** [x <= y] excludes [x > y]. *)
Lemma leb_not_gt (x y : float) :
  (x <=? y)%float = true -> (y <? x)%float = false.
Proof. rewrite leb_spec, ltb_spec. apply SFleb_not_gt. Qed.

(** [x <= y] and [y <= z] exclude [x > z]. *)
Lemma leb_leb_not_gt (x y z : float) :
  (x <=? y)%float = true -> (y <=? z)%float = true -> (z <? x)%float = false.
Proof.
  rewrite !leb_spec, ltb_spec. intros Hxy Hyz.
  apply SFleb_not_gt. exact (SFleb_trans _ _ _ Hxy Hyz).
Qed.

Lemma ltb_leb_trans (x y z : float) :
  (x <? y)%float = true -> (y <=? z)%float = true -> (x <? z)%float = true.
Proof. rewrite !ltb_spec, leb_spec. apply SFltb_leb_trans. Qed.

(** Subtracting the constructor's [0] does not move a number across a
    threshold. *)
Lemma sub_zero_ltb (x d : float) :
  (x - 0 <? d)%float = (x <? d)%float.
Proof.
  rewrite !ltb_spec, sub_spec.
  change (Prim2SF 0) with (S754_zero false).
  unfold SFltb, SF64sub.
  destruct (Prim2SF x) as [sx|sx| |sx mx ex]; simpl; try reflexivity.
  destruct sx; reflexivity.
Qed.

End FloatOrder.

(** ** Strings read from their end *)

Section Strings.

Lemma append_empty_r (s : string) : s ++ "" = s.
Proof. induction s as [|c s IH]; simpl; [reflexivity | now rewrite IH]. Qed.

Lemma append_assoc (s t u : string) : (s ++ t) ++ u = s ++ (t ++ u).
Proof. induction s as [|c s IH]; simpl; [reflexivity | now rewrite IH]. Qed.

Lemma length_snoc (s : string) (c : ascii) :
  String.length (s ++ String c "") = S (String.length s).
Proof. induction s as [|d s IH]; simpl; [reflexivity | now rewrite IH]. Qed.

(** A string that is not empty has a last character. *)
Lemma snoc_inv (s : string) :
  String.length s <> 0 -> exists s' c, s = s' ++ String c "".
Proof.
  induction s as [|d s IH]; intros Hl; [now destruct Hl|].
  destruct s as [|e s].
  - now exists "", d.
  - destruct IH as (s' & c & E); [discriminate|].
    exists (String d s'), c. simpl. now rewrite <- E.
Qed.

Lemma substring_last (s : string) (c : ascii) :
  substring (String.length s) 1 (s ++ String c "") = String c "".
Proof. induction s as [|d s IH]; simpl; [reflexivity | exact IH]. Qed.

Lemma lastIndex_snoc (s : string) (c : ascii) :
  Js.lastIndex (s ++ String c "") = Some (String c "").
Proof.
  unfold Js.lastIndex. rewrite length_snoc. now rewrite substring_last.
Qed.

Lemma lastIndex_empty : Js.lastIndex "" = None.
Proof. reflexivity. Qed.

Lemma replaceLastChar_snoc (s : string) (c : ascii) :
  Js.replaceLastChar (s ++ String c "") =
  if Js.isLineTerminator c then s ++ String c "" else s.
Proof.
  induction s as [|d s IH]; simpl; [reflexivity|].
  rewrite IH.
  destruct (s ++ String c "") eqn:E.
  - destruct s; discriminate.
  - now destruct (Js.isLineTerminator c).
Qed.

Lemma snoc_inj (s t : string) (c d : ascii) :
  s ++ String c "" = t ++ String d "" -> s = t /\ c = d.
Proof.
  revert t. induction s as [|a s IH]; intros [|b t] E; simpl in E.
  - now inversion E.
  - inversion E as [[Ha Hs]]. destruct t; discriminate.
  - inversion E as [[Ha Hs]]. destruct s; discriminate.
  - inversion E as [[Ha Hs]]. destruct (IH _ Hs) as [-> ->]. now split.
Qed.

Lemma get_snoc_last (s : string) (c : ascii) :
  String.get (String.length s) (s ++ String c "") = Some c.
Proof. induction s as [|d s IH]; simpl; [reflexivity | exact IH]. Qed.

Lemma get_snoc_before (s : string) (c : ascii) (i : nat) :
  i < String.length s -> String.get i (s ++ String c "") = String.get i s.
Proof.
  revert i. induction s as [|d s IH]; intros i Hi; simpl in *; [lia|].
  destruct i; [reflexivity|]. apply IH. lia.
Qed.

Lemma get_in_range (s : string) (i : nat) (c : ascii) :
  String.get i s = Some c -> i < String.length s.
Proof.
  revert i. induction s as [|d s IH]; intros i E; simpl in *; [discriminate|].
  destruct i; [lia|]. apply IH in E. lia.
Qed.

End Strings.

(** ** Sentences in which every delimiter follows a symbol *)

Section Scan.

Lemma scan_app (prev : option ascii) (s t : string) :
  scan prev (s ++ t) =
  match scan prev s with
  | Some l => scan l t
  | None => None
  end.
Proof.
  revert prev. induction s as [|c s IH]; intros prev; simpl; [reflexivity|].
  destruct (isSymbolChar c); [apply IH|].
  destruct (isDelimiterChar c); [|reflexivity].
  destruct prev as [p|]; [|reflexivity].
  destruct (isSymbolChar p); [apply IH | reflexivity].
Qed.

(** The character a successful reading ends on is the last one. *)
Lemma scan_snoc_last (prev l : option ascii) (s : string) (c : ascii) :
  scan prev (s ++ String c "") = Some l -> l = Some c.
Proof.
  rewrite scan_app. destruct (scan prev s) as [k|]; [|discriminate].
  simpl. destruct (isSymbolChar c); [congruence|].
  destruct (isDelimiterChar c); [|discriminate].
  destruct k as [p|]; [|discriminate].
  destruct (isSymbolChar p); [congruence | discriminate].
Qed.

Lemma scan_snoc_inv (prev l : option ascii) (s : string) (c : ascii) :
  scan prev (s ++ String c "") = Some l ->
  exists k, scan prev s = Some k /\ scan k (String c "") = Some l.
Proof.
  rewrite scan_app. destruct (scan prev s) as [k|]; [|discriminate].
  intros E. now exists k.
Qed.

(** What a successful reading says of each position. *)
Lemma scan_positions (s : string) (prev l : option ascii) :
  scan prev s = Some l ->
  forall i c, String.get i s = Some c ->
    (isSymbolChar c = true \/ isDelimiterChar c = true) /\
    (isDelimiterChar c = true ->
     match i with
     | O => exists p, prev = Some p /\ isSymbolChar p = true
     | S j => exists p, String.get j s = Some p /\ isSymbolChar p = true
     end).
Proof.
  revert prev. induction s as [|d s IH]; intros prev E i c G; simpl in *;
    [discriminate|].
  destruct i as [|i].
  - injection G as ->.
    destruct (isSymbolChar c) eqn:Sc.
    + split; [now left|]. intros Dc.
      unfold isSymbolChar, isDelimiterChar in *.
      destruct (Ascii.eqb_spec c "."), (Ascii.eqb_spec c "-");
        subst; simpl in *; discriminate.
    + destruct (isDelimiterChar c) eqn:Dc; [|discriminate].
      split; [now right|]. intros _.
      destruct prev as [p|]; [|discriminate].
      destruct (isSymbolChar p) eqn:Sp; [|discriminate].
      now exists p.
  - assert (E' : scan (Some d) s = Some l).
    { destruct (isSymbolChar d); [exact E|].
      destruct (isDelimiterChar d); [|discriminate].
      destruct prev as [p|]; [|discriminate].
      destruct (isSymbolChar p); [exact E | discriminate]. }
    destruct (IH _ E' i c G) as [K1 K2]. split; [exact K1|].
    intros Dc. specialize (K2 Dc). destruct i as [|i]; [|exact K2].
    destruct K2 as (p & Hp & Sp). injection Hp as <-. now exists d.
Qed.

End Scan.

(** ** What each method does to each field *)

Section Frames.

Lemma AudioState_eqb_eq (a b : AudioState) :
  AudioState_eqb a b = true <-> a = b.
Proof. destruct a, b; simpl; split; congruence. Qed.

Lemma strictEq_char (c d : ascii) :
  Js.strictEq (Some (String c "")) (String d "") = Ascii.eqb c d.
Proof. simpl. now destruct (Ascii.eqb c d). Qed.

Lemma sentence_changeAudioState (m : MicToMorseCode) (state : AudioState) :
  morseSentence (changeAudioState m state) = morseSentence m.
Proof.
  unfold changeAudioState.
  now destruct (AudioState_eqb (currentAudioState m) state).
Qed.

Lemma lastState_changeAudioState (m : MicToMorseCode) (state : AudioState) :
  lastState (changeAudioState m state) = lastState m.
Proof.
  unfold changeAudioState.
  now destruct (AudioState_eqb (currentAudioState m) state).
Qed.

Lemma threshold_changeAudioState (m : MicToMorseCode) (state : AudioState) :
  threshold (changeAudioState m state) = threshold m.
Proof.
  unfold changeAudioState.
  now destruct (AudioState_eqb (currentAudioState m) state).
Qed.

Lemma sentence_addCharacter (m : MicToMorseCode) (character : string) :
  morseSentence (addCharacter m character) = morseSentence m ++ character.
Proof.
  unfold addCharacter.
  destruct (String.eqb character wordDelimiter),
           (String.eqb character characterDelimiter); reflexivity.
Qed.

Lemma lastState_addCharacter (m : MicToMorseCode) (character : string) :
  lastState (addCharacter m character) = lastState m.
Proof.
  unfold addCharacter.
  destruct (String.eqb character wordDelimiter),
           (String.eqb character characterDelimiter); reflexivity.
Qed.

Lemma soundStopTime_addCharacter (m : MicToMorseCode) (character : string) :
  soundStopTime (addCharacter m character) = soundStopTime m.
Proof.
  unfold addCharacter.
  destruct (String.eqb character wordDelimiter),
           (String.eqb character characterDelimiter); reflexivity.
Qed.

Lemma threshold_addCharacter (m : MicToMorseCode) (character : string) :
  threshold (addCharacter m character) = threshold m.
Proof.
  unfold addCharacter.
  destruct (String.eqb character wordDelimiter),
           (String.eqb character characterDelimiter); reflexivity.
Qed.

Lemma sentence_logStartTime (m : MicToMorseCode) (t : float) :
  morseSentence (logStartTime m t) = morseSentence m.
Proof.
  unfold logStartTime.
  destruct (_ <? debounceTime m)%float; [reflexivity|].
  destruct (wasSound m).
  - destruct (dashTime m <? _)%float; [apply sentence_changeAudioState|].
    destruct (dotTime m <? _)%float; [apply sentence_changeAudioState|].
    reflexivity.
  - simpl. apply sentence_changeAudioState.
Qed.

(** The branches of [logEndTime], one equation each. *)

Lemma logEndTime_debounced (m : MicToMorseCode) (t : float) :
  (t - soundStartTime m <? debounceTime m)%float = true ->
  logEndTime m t = m.
Proof. intros D. unfold logEndTime. now rewrite D. Qed.

Lemma logEndTime_wordGap (m : MicToMorseCode) (t : float) :
  (t - soundStartTime m <? debounceTime m)%float = false ->
  lastState m = NoSound ->
  (wordTime m <? t - soundStopTime m)%float = true ->
  logEndTime m t =
  let lastCharacter := Js.lastIndex (morseSentence m) in
  let m1 := changeAudioState m WordDelimiterLength in
  if Nat.eqb (String.length (morseSentence m1)) 0 then m1
  else if Js.strictEq lastCharacter wordDelimiter then m1
  else addCharacter
         (if Js.strictEq lastCharacter characterDelimiter
          then removeLastLetterFromMorse m1 else m1)
         wordDelimiter.
Proof.
  intros D L W. unfold logEndTime, wasNoSound. now rewrite D, L, W.
Qed.

Lemma logEndTime_characterGap (m : MicToMorseCode) (t : float) :
  (t - soundStartTime m <? debounceTime m)%float = false ->
  lastState m = NoSound ->
  (wordTime m <? t - soundStopTime m)%float = false ->
  (characterTime m <? t - soundStopTime m)%float = true ->
  logEndTime m t =
  let lastCharacter := Js.lastIndex (morseSentence m) in
  let m1 := changeAudioState m CharacterDelimiterLength in
  if Nat.eqb (String.length (morseSentence m1)) 0 then m1
  else if isDelimiter lastCharacter then m1
  else addCharacter m1 characterDelimiter.
Proof.
  intros D L W C. unfold logEndTime, wasNoSound. now rewrite D, L, W, C.
Qed.

Lemma logEndTime_shortGap (m : MicToMorseCode) (t : float) :
  (t - soundStartTime m <? debounceTime m)%float = false ->
  lastState m = NoSound ->
  (wordTime m <? t - soundStopTime m)%float = false ->
  (characterTime m <? t - soundStopTime m)%float = false ->
  logEndTime m t = changeAudioState m ListeningNoSound.
Proof.
  intros D L W C. unfold logEndTime, wasNoSound. now rewrite D, L, W, C.
Qed.

Lemma logEndTime_toneEnd (m : MicToMorseCode) (t : float) :
  (t - soundStartTime m <? debounceTime m)%float = false ->
  lastState m = Sound ->
  logEndTime m t =
  let m1 := set_lastState (set_soundStopTime m t) NoSound in
  let onTime := (t - soundStartTime m)%float in
  if (dashTime m <? onTime)%float then addCharacter m1 "-"
  else if (dotTime m <? onTime)%float then addCharacter m1 "."
  else m1.
Proof.
  intros D L. unfold logEndTime, wasNoSound, wasSound. now rewrite D, L.
Qed.

End Frames.

(** ** Debounce *)

(** C6: a sample with signal whose time is less than [debounceTime] after
    [soundStopTime] is ignored: the instance is left exactly as it was, so the
    listening state, the audio state, both times and the sentence are
    unchanged, and no handler is called (the log is the same). *)
Theorem presence_within_debounce_ignored (m : MicToMorseCode) (t level : float) :
  signalPresent m level = true ->
  (t - soundStopTime m <? debounceTime m)%float = true ->
  onMicTime m t level = m.
Proof.
  intros P D. unfold onMicTime. unfold signalPresent in P. rewrite P.
  unfold logStartTime. now rewrite D.
Qed.

Lemma presence_within_debounce_ignored_witness :
  let m := performAll worked dotThenGap in
  signalPresent m loud = true /\
  (1 - soundStopTime m <? debounceTime m)%float = true /\
  onMicTime m 1 loud = m.
Proof.
  assert (P : signalPresent (performAll worked dotThenGap) loud = true)
    by (vm_compute; reflexivity).
  assert (D : (1 - soundStopTime (performAll worked dotThenGap)
               <? debounceTime (performAll worked dotThenGap))%float = true)
    by (vm_compute; reflexivity).
  exact (conj P (conj D (presence_within_debounce_ignored _ 1 loud P D))).
Defined.

Lemma before_debounceTime_ignored (m : MicToMorseCode) (t level : float) :
  soundStartTime m = 0%float ->
  soundStopTime m = 0%float ->
  (t <? debounceTime m)%float = true ->
  onMicTime m t level = m.
Proof.
  intros B E D. unfold onMicTime, logStartTime, logEndTime.
  rewrite B, E, !sub_zero_ltb, D. now destruct (threshold m <? level)%float.
Qed.

(** C10: on an instance whose [soundStartTime] and [soundStopTime] are both
    the constructor's 0, every sample, with signal or without, whose time is
    less than [debounceTime] is ignored: whatever the number of such samples
    the instance is left exactly as it was (no field changes, no handler is
    called), so no tone starts before [debounceTime]. *)
Theorem samples_before_debounceTime_ignored
  (m : MicToMorseCode) (samples : list (float * float)) :
  soundStartTime m = 0%float ->
  soundStopTime m = 0%float ->
  Forall (fun s => (fst s <? debounceTime m)%float = true) samples ->
  performAll m (ticksOf samples) = m.
Proof.
  intros B E F. unfold performAll.
  induction F as [|[t level] samples D _ IH]; simpl; [reflexivity|].
  now rewrite (before_debounceTime_ignored m t level B E D).
Qed.

Lemma samples_before_debounceTime_ignored_witness :
  let samples := [(0, loud); (0.05, loud); (0.1, quiet); (0.2, loud)]%float in
  soundStartTime worked = 0%float /\
  soundStopTime worked = 0%float /\
  Forall (fun s => (fst s <? debounceTime worked)%float = true) samples /\
  performAll worked (ticksOf samples) = worked.
Proof.
  assert (F : Forall (fun s => (fst s <? debounceTime worked)%float = true)
                [(0, loud); (0.05, loud); (0.1, quiet); (0.2, loud)]%float)
    by (repeat constructor).
  exact (conj eq_refl (conj eq_refl (conj F
    (samples_before_debounceTime_ignored worked _ eq_refl eq_refl F)))).
Defined.

(** ** The end of a tone *)

(** C1: a sample without signal that is not debounced and arrives while
    [lastState] is [Sound] sets [soundStopTime] to its time and [lastState] to
    [NoSound]; with [onDuration] its time minus [soundStartTime], the sentence
    gains exactly ["-"] when [onDuration > dashTime], exactly ["."] when
    [dotTime < onDuration <= dashTime], and nothing when
    [onDuration <= dotTime] (the configuration having [dotTime <= dashTime]). *)
Theorem tone_end_classified (m : MicToMorseCode) (t level : float) :
  signalPresent m level = false ->
  (t - soundStartTime m <? debounceTime m)%float = false ->
  lastState m = Sound ->
  let onDuration := (t - soundStartTime m)%float in
  let m' := onMicTime m t level in
  soundStopTime m' = t /\
  lastState m' = NoSound /\
  ((dashTime m <? onDuration)%float = true ->
   morseSentence m' = morseSentence m ++ "-") /\
  ((dotTime m <? onDuration)%float = true ->
   (onDuration <=? dashTime m)%float = true ->
   morseSentence m' = morseSentence m ++ ".") /\
  ((onDuration <=? dotTime m)%float = true ->
   (dotTime m <=? dashTime m)%float = true ->
   morseSentence m' = morseSentence m).
Proof.
  intros P D L onDuration m'.
  assert (E : m' = logEndTime m t).
  { unfold m', onMicTime. unfold signalPresent in P. now rewrite P. }
  rewrite E, (logEndTime_toneEnd m t D L). fold onDuration. cbv zeta.
  repeat split.
  - destruct (dashTime m <? onDuration)%float;
      [|destruct (dotTime m <? onDuration)%float];
      rewrite ?soundStopTime_addCharacter; reflexivity.
  - destruct (dashTime m <? onDuration)%float;
      [|destruct (dotTime m <? onDuration)%float];
      rewrite ?lastState_addCharacter; reflexivity.
  - intros Hdash. rewrite Hdash. now rewrite sentence_addCharacter.
  - intros Hdot Hle. rewrite (leb_not_gt _ _ Hle), Hdot.
    now rewrite sentence_addCharacter.
  - intros Hle Hcfg.
    rewrite (leb_leb_not_gt _ _ _ Hle Hcfg), (leb_not_gt _ _ Hle).
    reflexivity.
Qed.

Lemma tone_end_classified_witness :
  let m := performAll worked (ticks loud 0 18) in
  signalPresent m quiet = false /\
  (0.9 - soundStartTime m <? debounceTime m)%float = false /\
  lastState m = Sound /\
  soundStopTime (onMicTime m 0.9 quiet) = 0.9%float /\
  lastState (onMicTime m 0.9 quiet) = NoSound /\
  morseSentence (onMicTime m 0.9 quiet) = morseSentence m ++ ".".
Proof.
  assert (P : signalPresent (performAll worked (ticks loud 0 18)) quiet = false)
    by (vm_compute; reflexivity).
  assert (D : (0.9 - soundStartTime (performAll worked (ticks loud 0 18))
               <? debounceTime (performAll worked (ticks loud 0 18)))%float = false)
    by (vm_compute; reflexivity).
  assert (L : lastState (performAll worked (ticks loud 0 18)) = Sound)
    by (vm_compute; reflexivity).
  destruct (tone_end_classified _ 0.9 quiet P D L) as (A & B & _ & Hdot & _).
  assert (H1 : (dotTime (performAll worked (ticks loud 0 18))
                <? 0.9 - soundStartTime (performAll worked (ticks loud 0 18)))%float
               = true) by (vm_compute; reflexivity).
  assert (H2 : (0.9 - soundStartTime (performAll worked (ticks loud 0 18))
                <=? dashTime (performAll worked (ticks loud 0 18)))%float
               = true) by (vm_compute; reflexivity).
  exact (conj P (conj D (conj L (conj A (conj B (Hdot H1 H2)))))).
Defined.

(** ** Audio-state notifications *)

Section Notifications.

Lemma onlyChanges_refl (es : list event) : onlyChanges es es.
Proof. exists []. split; [now rewrite app_nil_r | constructor]. Qed.

Lemma onlyChanges_trans (a b c : list event) :
  onlyChanges a b -> onlyChanges b c -> onlyChanges a c.
Proof.
  intros (e1 & -> & F1) (e2 & -> & F2). exists (e1 ++ e2)%list.
  split; [now rewrite app_assoc | now apply Forall_app].
Qed.

Lemma onlyChanges_fire (m : MicToMorseCode) (e : event) :
  reportsChange e -> onlyChanges (fired m) (fired (fire m e)).
Proof. intros R. exists [e]. split; [reflexivity | now constructor]. Qed.

Lemma changeAudioState_same (m : MicToMorseCode) :
  changeAudioState m (currentAudioState m) = m.
Proof.
  unfold changeAudioState.
  now rewrite (proj2 (AudioState_eqb_eq _ _) eq_refl).
Qed.

Lemma onlyChanges_changeAudioState (m : MicToMorseCode) (state : AudioState) :
  onlyChanges (fired m) (fired (changeAudioState m state)).
Proof.
  unfold changeAudioState.
  destruct (AudioState_eqb (currentAudioState m) state) eqn:E.
  - apply onlyChanges_refl.
  - unfold emitAudioStateChangeEvent.
    apply (onlyChanges_fire (set_currentAudioState m state)).
    simpl. intros ->.
    rewrite (proj2 (AudioState_eqb_eq _ _) eq_refl) in E. discriminate.
Qed.

Lemma onlyChanges_addCharacter (m : MicToMorseCode) (character : string) :
  onlyChanges (fired m) (fired (addCharacter m character)).
Proof.
  unfold addCharacter, emitSentenceChangeEvent, emitWordEndEvent,
    emitCharacterEndEvent.
  destruct (String.eqb character wordDelimiter),
           (String.eqb character characterDelimiter); simpl;
    rewrite <- ?app_assoc;
    eexists; (split; [reflexivity | repeat constructor]).
Qed.

Lemma onlyChanges_logStartTime (m : MicToMorseCode) (t : float) :
  onlyChanges (fired m) (fired (logStartTime m t)).
Proof.
  unfold logStartTime.
  destruct (_ <? debounceTime m)%float; [apply onlyChanges_refl|].
  destruct (wasSound m).
  - destruct (dashTime m <? _)%float; [apply onlyChanges_changeAudioState|].
    destruct (dotTime m <? _)%float; [apply onlyChanges_changeAudioState|].
    apply onlyChanges_refl.
  - simpl. apply onlyChanges_changeAudioState.
Qed.

Lemma onlyChanges_logEndTime (m : MicToMorseCode) (t : float) :
  onlyChanges (fired m) (fired (logEndTime m t)).
Proof.
  unfold logEndTime.
  destruct (_ <? debounceTime m)%float; [apply onlyChanges_refl|].
  destruct (wasNoSound m && _)%bool.
  { destruct (Nat.eqb _ 0); [apply onlyChanges_changeAudioState|].
    destruct (Js.strictEq _ wordDelimiter);
      [apply onlyChanges_changeAudioState|].
    eapply onlyChanges_trans; [|apply onlyChanges_addCharacter].
    destruct (Js.strictEq _ characterDelimiter); simpl;
      apply onlyChanges_changeAudioState. }
  destruct (wasNoSound m && _)%bool.
  { destruct (Nat.eqb _ 0); [apply onlyChanges_changeAudioState|].
    destruct (isDelimiter _); [apply onlyChanges_changeAudioState|].
    eapply onlyChanges_trans; [|apply onlyChanges_addCharacter].
    apply onlyChanges_changeAudioState. }
  destruct (wasNoSound m); [apply onlyChanges_changeAudioState|].
  destruct (wasSound m); [|apply onlyChanges_refl].
  cbv zeta.
  destruct (dashTime _ <? _)%float;
    [apply (onlyChanges_addCharacter (set_lastState (set_soundStopTime m t) NoSound))|].
  destruct (dotTime _ <? _)%float;
    [apply (onlyChanges_addCharacter (set_lastState (set_soundStopTime m t) NoSound))|].
  apply onlyChanges_refl.
Qed.

Lemma onlyChanges_perform (m : MicToMorseCode) (c : call) :
  onlyChanges (fired m) (fired (perform m c)).
Proof.
  destruct c; simpl; try apply onlyChanges_refl.
  - unfold onMicTime. destruct (threshold m <? level)%float;
      [apply onlyChanges_logStartTime | apply onlyChanges_logEndTime].
  - unfold clearSentence, emitSentenceChangeEvent.
    eexists; (split; [reflexivity | repeat constructor]).
  - unfold deleteCharacter, emitSentenceChangeEvent.
    eexists; (split; [reflexivity | repeat constructor]).
  - unfold deleteWord, emitSentenceChangeEvent.
    eexists; (split; [reflexivity | repeat constructor]).
  - apply onlyChanges_changeAudioState.
  - apply onlyChanges_changeAudioState.
Qed.

End Notifications.

(** C9: a change to the audio state already held leaves the instance exactly
    as it was (nothing is stored, no handler is called), and whatever calls
    are made on an instance, every audio-state-change call they add to the
    log reports a current state different from the previous one. *)
Theorem audio_state_change_reports_a_change (m : MicToMorseCode) (cs : list call) :
  changeAudioState m (currentAudioState m) = m /\
  onlyChanges (fired m) (fired (performAll m cs)).
Proof.
  split; [apply changeAudioState_same|].
  unfold performAll. revert m.
  induction cs as [|c cs IH]; intros m; simpl; [apply onlyChanges_refl|].
  eapply onlyChanges_trans; [apply onlyChanges_perform | apply IH].
Qed.

(** ** The shape of the sentence *)

Section Shape.

Lemma wellDelimited_empty : wellDelimited "".
Proof. discriminate. Qed.

Lemma wellDelimited_snoc_symbol (s : string) (c : ascii) :
  wellDelimited s -> isSymbolChar c = true ->
  wellDelimited (s ++ String c "").
Proof.
  unfold wellDelimited. intros W Sc. rewrite scan_app.
  destruct (scan None s) as [k|]; [|contradiction].
  simpl. rewrite Sc. discriminate.
Qed.

Lemma wellDelimited_snoc_delimiter (s : string) (p d : ascii) :
  wellDelimited (s ++ String p "") -> isSymbolChar p = true ->
  isDelimiterChar d = true ->
  wellDelimited ((s ++ String p "") ++ String d "").
Proof.
  unfold wellDelimited. intros W Sp Dd. rewrite scan_app.
  destruct (scan None (s ++ String p "")) as [k|] eqn:E; [|contradiction].
  apply scan_snoc_last in E. subst k. simpl. rewrite Sp, Dd.
  destruct (isSymbolChar d); discriminate.
Qed.

Lemma symbol_not_delimiter (c : ascii) :
  isSymbolChar c = true -> isDelimiterChar c = false.
Proof.
  unfold isSymbolChar, isDelimiterChar.
  destruct (Ascii.eqb_spec c "."), (Ascii.eqb_spec c "-"); subst;
    simpl; intros; try reflexivity; discriminate.
Qed.

(** The last character of such a sentence is a symbol, or a delimiter
    that follows a symbol. *)
Lemma wellDelimited_snoc_inv (s : string) (c : ascii) :
  wellDelimited (s ++ String c "") ->
  wellDelimited s /\
  (isSymbolChar c = true \/
   isDelimiterChar c = true /\
   exists s0 p, s = s0 ++ String p "" /\ isSymbolChar p = true).
Proof.
  unfold wellDelimited. rewrite scan_app.
  destruct (scan None s) as [k|] eqn:E; [|contradiction].
  intros W. split; [discriminate|]. simpl in W.
  destruct (isSymbolChar c); [now left|]. right.
  destruct (isDelimiterChar c); [|contradiction]. split; [reflexivity|].
  destruct k as [p|]; [|contradiction].
  destruct (isSymbolChar p) eqn:Sp; [|contradiction].
  destruct s as [|a s]; [discriminate|].
  destruct (snoc_inv (String a s)) as (s0 & q & Es); [discriminate|].
  rewrite Es in E. apply scan_snoc_last in E. injection E as <-.
  now exists s0, p.
Qed.

Lemma wellDelimited_logEndTime (m : MicToMorseCode) (t : float) :
  wellDelimited (morseSentence m) ->
  wellDelimited (morseSentence (logEndTime m t)).
Proof.
  intros W. unfold logEndTime.
  destruct (_ <? debounceTime m)%float; [exact W|].
  destruct (wasNoSound m && _)%bool.
  { rewrite sentence_changeAudioState.
    destruct (Nat.eqb_spec (String.length (morseSentence m)) 0) as [Z|NZ];
      [now rewrite sentence_changeAudioState|].
    destruct (snoc_inv _ NZ) as (s & c & E).
    rewrite E, lastIndex_snoc. unfold wordDelimiter, characterDelimiter.
    rewrite !strictEq_char.
    destruct (Ascii.eqb_spec c "/") as [Ew|Nw];
      [now rewrite sentence_changeAudioState|].
    rewrite sentence_addCharacter. rewrite E in W.
    destruct (wellDelimited_snoc_inv _ _ W) as [Ws [Sc|[Dc (s0 & p & Es & Sp)]]].
    - destruct (Ascii.eqb_spec c " ") as [->|_]; [discriminate|].
      rewrite sentence_changeAudioState, E.
      now apply wellDelimited_snoc_delimiter.
    - destruct (Ascii.eqb_spec c " ") as [->|Nc].
      + unfold removeLastLetterFromMorse. simpl morseSentence.
        rewrite sentence_changeAudioState, E, replaceLastChar_snoc.
        simpl Js.isLineTerminator. cbv iota. subst s.
        apply wellDelimited_snoc_delimiter; [exact Ws | exact Sp | reflexivity].
      + unfold isDelimiterChar in Dc.
        destruct (Ascii.eqb_spec c " "), (Ascii.eqb_spec c "/");
          try contradiction; discriminate. }
  destruct (wasNoSound m && _)%bool.
  { rewrite sentence_changeAudioState.
    destruct (Nat.eqb_spec (String.length (morseSentence m)) 0) as [Z|NZ];
      [now rewrite sentence_changeAudioState|].
    destruct (snoc_inv _ NZ) as (s & c & E).
    rewrite E, lastIndex_snoc. unfold isDelimiter, wordDelimiter, characterDelimiter.
    rewrite !strictEq_char.
    destruct (Ascii.eqb_spec c "/") as [Ew|Nw];
      [simpl orb; cbv iota; now rewrite sentence_changeAudioState|].
    destruct (Ascii.eqb_spec c " ") as [Ec|Nc];
      [simpl orb; cbv iota; now rewrite sentence_changeAudioState|].
    simpl orb. cbv iota.
    rewrite sentence_addCharacter, sentence_changeAudioState, E.
    rewrite E in W.
    destruct (wellDelimited_snoc_inv _ _ W) as [Ws [Sc|[Dc _]]].
    - now apply wellDelimited_snoc_delimiter.
    - unfold isDelimiterChar in Dc.
      destruct (Ascii.eqb_spec c " "), (Ascii.eqb_spec c "/");
        try contradiction; discriminate. }
  destruct (wasNoSound m); [now rewrite sentence_changeAudioState|].
  destruct (wasSound m); [|exact W]. cbv zeta.
  destruct (dashTime _ <? _)%float;
    [rewrite sentence_addCharacter; now apply wellDelimited_snoc_symbol|].
  destruct (dotTime _ <? _)%float;
    [rewrite sentence_addCharacter; now apply wellDelimited_snoc_symbol|].
  exact W.
Qed.

Lemma wellDelimited_perform (m : MicToMorseCode) (c : call) :
  wellDelimited (morseSentence m) ->
  wellDelimited (morseSentence (perform m c)).
Proof.
  intros W. destruct c; simpl; try exact W.
  - unfold onMicTime. destruct (threshold m <? level)%float;
      [now rewrite sentence_logStartTime | now apply wellDelimited_logEndTime].
  - apply wellDelimited_empty.
  - unfold startMicrophone. now rewrite sentence_changeAudioState.
  - unfold stopMicrophone. now rewrite sentence_changeAudioState.
Qed.

Lemma wellDelimited_performAll (m : MicToMorseCode) (cs : list call) :
  wellDelimited (morseSentence m) ->
  wellDelimited (morseSentence (performAll m cs)).
Proof.
  unfold performAll. revert m.
  induction cs as [|c cs IH]; intros m W; simpl; [exact W|].
  apply IH. now apply wellDelimited_perform.
Qed.

Lemma wellDelimited_reachable (m : MicToMorseCode) :
  reachable m -> wellDelimited (morseSentence m).
Proof.
  induction 1 as [| m c _ IH]; [apply wellDelimited_empty|].
  now apply wellDelimited_perform.
Qed.

Lemma reachable_performAll (m : MicToMorseCode) (cs : list call) :
  reachable m -> reachable (performAll m cs).
Proof.
  unfold performAll. revert m.
  induction cs as [|c cs IH]; intros m R; simpl; [exact R|].
  apply IH. now constructor.
Qed.

(** Position by position: every character is a symbol or a delimiter, and a
    delimiter is never first and always has a symbol just before it. *)
Lemma wellDelimited_positions (s : string) :
  wellDelimited s ->
  forall i c, String.get i s = Some c -> isDelimiterChar c = true ->
    exists j p, i = S j /\ String.get j s = Some p /\ isSymbolChar p = true.
Proof.
  unfold wellDelimited. intros W i c G Dc.
  destruct (scan None s) as [l|] eqn:E; [|contradiction].
  destruct (scan_positions s None l E i c G) as [_ K]. specialize (K Dc).
  destruct i as [|j].
  - destruct K as (p & Hp & _). discriminate.
  - destruct K as (p & Hp & Sp). now exists j, p.
Qed.

End Shape.

(** C8: whatever calls (ticks of the timer, edits, settings) are made on an
    instance whose sentence is empty, the sentence does not begin with a
    delimiter, has no two delimiters next to each other, and has a ['.'] or
    ['-'] just before every delimiter. *)
Theorem delimiters_follow_symbols (m : MicToMorseCode) (cs : list call) :
  morseSentence m = "" ->
  let s := morseSentence (performAll m cs) in
  (forall c, String.get 0 s = Some c -> isDelimiterChar c = false) /\
  (forall i c d, String.get i s = Some c -> String.get (S i) s = Some d ->
     ~ (isDelimiterChar c = true /\ isDelimiterChar d = true)) /\
  (forall i c, String.get i s = Some c -> isDelimiterChar c = true ->
     exists j p, i = S j /\ String.get j s = Some p /\ isSymbolChar p = true).
Proof.
  intros E s.
  assert (W : wellDelimited s).
  { apply wellDelimited_performAll. rewrite E. apply wellDelimited_empty. }
  pose proof (wellDelimited_positions s W) as K.
  split; [|split]; [| |exact K].
  - intros c G. destruct (isDelimiterChar c) eqn:Dc; [|reflexivity].
    destruct (K 0 c G Dc) as (j & p & Hj & _). discriminate.
  - intros i c d Gc Gd [Dc Dd].
    destruct (K (S i) d Gd Dd) as (j & p & Hj & Gp & Sp).
    injection Hj as <-. rewrite Gc in Gp. injection Gp as <-.
    rewrite (symbol_not_delimiter _ Sp) in Dc. discriminate.
Qed.

Lemma delimiters_follow_symbols_witness :
  morseSentence worked = "" /\
  (forall c, String.get 0 (morseSentence (performAll worked dotThenLongGap)) = Some c ->
     isDelimiterChar c = false) /\
  (forall i c d,
     String.get i (morseSentence (performAll worked dotThenLongGap)) = Some c ->
     String.get (S i) (morseSentence (performAll worked dotThenLongGap)) = Some d ->
     ~ (isDelimiterChar c = true /\ isDelimiterChar d = true)) /\
  (forall i c,
     String.get i (morseSentence (performAll worked dotThenLongGap)) = Some c ->
     isDelimiterChar c = true ->
     exists j p, i = S j /\
       String.get j (morseSentence (performAll worked dotThenLongGap)) = Some p /\
       isSymbolChar p = true).
Proof.
  exact (conj eq_refl (delimiters_follow_symbols worked dotThenLongGap eq_refl)).
Defined.

(** ** Word gaps *)

Section WordGap.

Lemma lastIndex_nonempty (s t : string) :
  Js.lastIndex s = Some t ->
  exists s' c, s = s' ++ String c "" /\ t = String c "".
Proof.
  intros H.
  destruct (snoc_inv s) as (s' & c & E).
  { intros Z. unfold Js.lastIndex in H. rewrite Z in H. discriminate. }
  exists s', c. split; [exact E|].
  rewrite E, lastIndex_snoc in H. congruence.
Qed.

(** Without signal, after a word delimiter and with no tone begun, a tick
    changes at most the audio state. *)
Lemma silence_after_wordDelimiter (m : MicToMorseCode) (t : float) :
  lastState m = NoSound ->
  Js.lastIndex (morseSentence m) = Some wordDelimiter ->
  logEndTime m t = m \/
  exists state, logEndTime m t = changeAudioState m state.
Proof.
  intros L H. unfold logEndTime, wasNoSound. rewrite L, H.
  destruct (_ <? debounceTime m)%float; [now left|]. right.
  simpl andb. unfold isDelimiter. simpl Js.strictEq. simpl orb.
  destruct (wordTime m <? _)%float.
  - exists WordDelimiterLength. now destruct (Nat.eqb _ 0).
  - destruct (characterTime m <? _)%float.
    + exists CharacterDelimiterLength. now destruct (Nat.eqb _ 0).
    + now exists ListeningNoSound.
Qed.

Lemma silent_run_after_wordDelimiter
  (samples : list (float * float)) (m : MicToMorseCode) :
  lastState m = NoSound ->
  Js.lastIndex (morseSentence m) = Some wordDelimiter ->
  Forall (fun s => signalPresent m (snd s) = false) samples ->
  morseSentence (performAll m (ticksOf samples)) = morseSentence m /\
  lastState (performAll m (ticksOf samples)) = NoSound.
Proof.
  unfold performAll. revert m.
  induction samples as [|[t level] samples IH]; intros m L H F; simpl;
    [now split|].
  inversion F as [|? ? P F']; subst. simpl in P.
  assert (E : onMicTime m t level = logEndTime m t).
  { unfold onMicTime. unfold signalPresent in P. now rewrite P. }
  assert (K : morseSentence (logEndTime m t) = morseSentence m /\
              lastState (logEndTime m t) = lastState m /\
              threshold (logEndTime m t) = threshold m).
  { destruct (silence_after_wordDelimiter m t L H) as [->|[state ->]];
      [now repeat split|].
    now rewrite sentence_changeAudioState, lastState_changeAudioState,
      threshold_changeAudioState. }
  destruct K as (Ks & Kl & Kt). rewrite E.
  destruct (IH (logEndTime m t)) as [I1 I2].
  - now rewrite Kl.
  - now rewrite Ks.
  - unfold signalPresent in *. now rewrite Kt.
  - now rewrite I1, I2, Ks.
Qed.

End WordGap.

(** C5, amended: whatever calls are made on an instance whose sentence is
    empty, the sentence never has two word delimiters next to each other;
    and once the sentence ends in the word delimiter and [lastState] is
    [NoSound], a run of samples without signal, however long and whatever
    their times (so also with [offDuration > wordTime]), leaves the sentence
    as it is and [lastState] at [NoSound]. *)
Theorem word_delimiter_not_repeated
  (m0 : MicToMorseCode) (cs : list call) (samples : list (float * float)) :
  morseSentence m0 = "" ->
  let m := performAll m0 cs in
  (forall i, ~ (String.get i (morseSentence m) = Some "/"%char /\
                String.get (S i) (morseSentence m) = Some "/"%char)) /\
  (lastState m = NoSound ->
   Js.lastIndex (morseSentence m) = Some wordDelimiter ->
   Forall (fun s => signalPresent m (snd s) = false) samples ->
   morseSentence (performAll m (ticksOf samples)) = morseSentence m /\
   lastState (performAll m (ticksOf samples)) = NoSound).
Proof.
  intros E m. split.
  - intros i [G1 G2].
    assert (W : wellDelimited (morseSentence m)).
    { apply wellDelimited_performAll. rewrite E. apply wellDelimited_empty. }
    destruct (wellDelimited_positions _ W (S i) "/"%char G2 eq_refl)
      as (j & p & Hj & Gp & Sp).
    injection Hj as <-. rewrite G1 in Gp. injection Gp as <-. discriminate.
  - intros L H F. now apply silent_run_after_wordDelimiter.
Qed.

Lemma word_delimiter_not_repeated_witness :
  morseSentence worked = "" /\
  (forall i,
     ~ (String.get i (morseSentence (performAll worked dotThenLongGap)) = Some "/"%char /\
        String.get (S i) (morseSentence (performAll worked dotThenLongGap)) = Some "/"%char)) /\
  morseSentence (performAll (performAll worked dotThenLongGap) (ticksOf laterSilence)) =
    morseSentence (performAll worked dotThenLongGap) /\
  lastState (performAll (performAll worked dotThenLongGap) (ticksOf laterSilence)) = NoSound.
Proof.
  pose proof (word_delimiter_not_repeated worked dotThenLongGap laterSilence eq_refl)
    as K.
  cbv zeta in K. destruct K as [A B].
  assert (L : lastState (performAll worked dotThenLongGap) = NoSound)
    by (vm_compute; reflexivity).
  assert (H : Js.lastIndex (morseSentence (performAll worked dotThenLongGap)) =
              Some wordDelimiter) by (vm_compute; reflexivity).
  assert (F : Forall (fun s => signalPresent (performAll worked dotThenLongGap) (snd s) = false)
                laterSilence)
    by (repeat constructor).
  exact (conj eq_refl (conj A (B L H F))).
Defined.

(** Against C5 as it is worded: after the sentence has come to end in the
    word delimiter a tone of one second is heard; the sample without signal
    at t = 5 that ends it has [offDuration = 5 - 0.9 > wordTime], and it
    appends ["."]. *)
Lemma silence_ending_a_tone_appends_after_wordDelimiter :
  Js.lastIndex (morseSentence (performAll worked dotGapTone)) = Some wordDelimiter /\
  signalPresent (performAll worked dotGapTone) quiet = false /\
  (wordTime (performAll worked dotGapTone)
   <? 5 - soundStopTime (performAll worked dotGapTone))%float = true /\
  morseSentence (performAll worked dotGapTone) = "./" /\
  morseSentence (onMicTime (performAll worked dotGapTone) 5 quiet) = "./." /\
  morseSentence (onMicTime (performAll worked dotGapTone) 5 quiet) <>
    morseSentence (performAll worked dotGapTone).
Proof.
  assert (A : morseSentence (performAll worked dotGapTone) = "./")
    by (vm_compute; reflexivity).
  assert (B : morseSentence (onMicTime (performAll worked dotGapTone) 5 quiet) = "./.")
    by (vm_compute; reflexivity).
  repeat split; try (vm_compute; reflexivity).
  rewrite A, B. discriminate.
Qed.

(** C4: on an instance a constructor call and any calls have led to, a sample
    without signal that is not debounced, arrives while [lastState] is
    [NoSound] with [offDuration > wordTime], and finds the sentence ending in
    the character delimiter, replaces that delimiter by the word delimiter:
    the sentence was [body], a symbol and the character delimiter, and
    becomes [body], the same symbol and the word delimiter, which does not
    end in a character delimiter followed by a word delimiter. *)
Theorem word_gap_replaces_character_delimiter
  (m : MicToMorseCode) (t level : float) :
  reachable m ->
  signalPresent m level = false ->
  (t - soundStartTime m <? debounceTime m)%float = false ->
  lastState m = NoSound ->
  (wordTime m <? t - soundStopTime m)%float = true ->
  Js.lastIndex (morseSentence m) = Some characterDelimiter ->
  exists (body : string) (c : ascii),
    isSymbolChar c = true /\
    morseSentence m = body ++ String c "" ++ characterDelimiter /\
    morseSentence (onMicTime m t level) = body ++ String c "" ++ wordDelimiter /\
    ~ EndsWith (morseSentence (onMicTime m t level))
               (characterDelimiter ++ wordDelimiter).
Proof.
  intros R P D L W H.
  destruct (lastIndex_nonempty _ _ H) as (s & d & E & Ed).
  injection Ed as <-.
  pose proof (wellDelimited_reachable m R) as Wd. rewrite E in Wd.
  destruct (wellDelimited_snoc_inv _ _ Wd) as [_ [Sd|[_ (body & c & Es & Sc)]]];
    [discriminate|].
  assert (N : morseSentence (onMicTime m t level) =
              body ++ String c "" ++ wordDelimiter).
  { unfold onMicTime. unfold signalPresent in P. rewrite P.
    rewrite (logEndTime_wordGap m t D L W). cbv zeta.
    rewrite sentence_changeAudioState, H, E.
    rewrite length_snoc. simpl Nat.eqb. simpl Js.strictEq. cbv iota.
    rewrite sentence_addCharacter. unfold removeLastLetterFromMorse.
    simpl morseSentence. rewrite sentence_changeAudioState, E.
    rewrite replaceLastChar_snoc. simpl Js.isLineTerminator. cbv iota.
    rewrite Es. apply append_assoc. }
  exists body, c. split; [exact Sc|]. split.
  - rewrite E, Es. apply append_assoc.
  - split; [exact N|]. rewrite N. intros (q & Q).
    change (body ++ String c "" ++ wordDelimiter)
      with (body ++ String c "" ++ String "/" "") in Q.
    change (q ++ characterDelimiter ++ wordDelimiter)
      with (q ++ String " " "" ++ String "/" "") in Q.
    rewrite <- !append_assoc in Q.
    apply snoc_inj in Q. destruct Q as [Q _].
    apply snoc_inj in Q. destruct Q as [_ ->]. discriminate.
Qed.

Lemma word_gap_replaces_character_delimiter_witness :
  reachable (performAll worked dotThenGap) /\
  signalPresent (performAll worked dotThenGap) quiet = false /\
  (3.95 - soundStartTime (performAll worked dotThenGap)
   <? debounceTime (performAll worked dotThenGap))%float = false /\
  lastState (performAll worked dotThenGap) = NoSound /\
  (wordTime (performAll worked dotThenGap)
   <? 3.95 - soundStopTime (performAll worked dotThenGap))%float = true /\
  Js.lastIndex (morseSentence (performAll worked dotThenGap)) = Some characterDelimiter /\
  exists (body : string) (c : ascii),
    isSymbolChar c = true /\
    morseSentence (performAll worked dotThenGap) =
      body ++ String c "" ++ characterDelimiter /\
    morseSentence (onMicTime (performAll worked dotThenGap) 3.95 quiet) =
      body ++ String c "" ++ wordDelimiter /\
    ~ EndsWith (morseSentence (onMicTime (performAll worked dotThenGap) 3.95 quiet))
               (characterDelimiter ++ wordDelimiter).
Proof.
  assert (R : reachable (performAll worked dotThenGap))
    by (apply reachable_performAll; apply reachable_new).
  assert (P : signalPresent (performAll worked dotThenGap) quiet = false)
    by (vm_compute; reflexivity).
  assert (D : (3.95 - soundStartTime (performAll worked dotThenGap)
               <? debounceTime (performAll worked dotThenGap))%float = false)
    by (vm_compute; reflexivity).
  assert (L : lastState (performAll worked dotThenGap) = NoSound)
    by (vm_compute; reflexivity).
  assert (W : (wordTime (performAll worked dotThenGap)
               <? 3.95 - soundStopTime (performAll worked dotThenGap))%float = true)
    by (vm_compute; reflexivity).
  assert (H : Js.lastIndex (morseSentence (performAll worked dotThenGap)) =
              Some characterDelimiter) by (vm_compute; reflexivity).
  exact (conj R (conj P (conj D (conj L (conj W (conj H
    (word_gap_replaces_character_delimiter _ 3.95 quiet R P D L W H))))))).
Defined.

(** ** The worked example *)

(** Against C3 as it is worded: with the timer's 50 ms ticks, the samples
    before t = 0.25 are debounced against the constructor's
    [soundStopTime = 0], so the tone starts at 0.25 and lasts 0.35, which is
    not more than [dotTime]; nothing is appended, and the silence, 1.9 long
    at t = 2.5, is not more than [characterTime] either.  The sentence stays
    empty and the character-end handler is never called. *)
Lemma section8_trace_appends_nothing :
  getMorseString (performAll worked shortTone) = "" /\
  characterEnds (fired (performAll worked shortTone)) = [] /\
  ~ (getMorseString (performAll worked shortTone) = ". " /\
     characterEnds (fired (performAll worked shortTone)) = [Some "."]).
Proof.
  assert (A : getMorseString (performAll worked shortTone) = "")
    by (vm_compute; reflexivity).
  split; [exact A|]. split; [vm_compute; reflexivity|].
  rewrite A. intros [B _]. discriminate.
Qed.

(** Other ways of sampling the same signal do no better: a tone that ends
    at t = 0.6 leaves at most 1.9 of silence by t = 2.5, so no character
    delimiter can follow it. *)
Remark section8_trace_other_samplings :
  getMorseString (performAll worked shortToneInclusive) = "" /\
  getMorseString (performAll worked shortToneEndPoints) = "-" /\
  characterEnds (fired (performAll worked shortToneInclusive)) = [] /\
  characterEnds (fired (performAll worked shortToneEndPoints)) = [].
Proof. repeat split; vm_compute; reflexivity. Qed.

(** C3, amended: in the configuration of the example, samples with signal
    from t = 0 to t = 0.55 and without from t = 0.6 to t = 2.5, one every
    50 ms, leave the sentence empty and call no character-end handler; with
    signal up to t = 0.85 and silence from t = 0.9 to t = 2.95 the sentence
    is [". "] and the character-end handler is called exactly once; and
    appending the character delimiter always calls the character-end handler
    once, then the change handler with the new and the old sentence. *)
Theorem character_delimiter_fires_character_end :
  (getMorseString (performAll worked shortTone) = "" /\
   characterEnds (fired (performAll worked shortTone)) = []) /\
  (getMorseString (performAll worked dotThenGap) = ". " /\
   List.length (characterEnds (fired (performAll worked dotThenGap))) = 1) /\
  (forall m : MicToMorseCode, exists segment : option string,
     fired (addCharacter m characterDelimiter) =
     (fired m ++ [OnCharacterEnd segment;
                  OnChange (morseSentence m ++ characterDelimiter) (morseSentence m)])%list).
Proof.
  split; [split; vm_compute; reflexivity|].
  split; [split; vm_compute; reflexivity|].
  intros m. eexists. unfold addCharacter. simpl.
  rewrite <- app_assoc. reflexivity.
Qed.

(** What the handler is given: the sentence is split after the delimiter has
    been appended, so the last segment is the empty string. *)
Remark character_end_segment_in_example :
  characterEnds (fired (performAll worked dotThenGap)) = [Some ""].
Proof. vm_compute. reflexivity. Qed.

(** ** Edits *)

(** C2, as the code stands: [deleteCharacter] and [deleteWord] leave the
    sentence as it is, for every instance.  After a dot, a character gap and
    a dot the sentence is [". ."] and is still [". ."] after
    [deleteCharacter]; after a dot, a word gap and a dot it is ["./."] and
    is still ["./."] after [deleteWord]. *)
Theorem delete_leaves_sentence_unchanged :
  (forall m : MicToMorseCode,
     getMorseString (deleteCharacter m) = getMorseString m /\
     getMorseString (deleteWord m) = getMorseString m) /\
  getMorseString (performAll worked dotGapDot) = ". ." /\
  getMorseString (deleteCharacter (performAll worked dotGapDot)) = ". ." /\
  getMorseString (performAll worked dotWordDot) = "./." /\
  getMorseString (deleteWord (performAll worked dotWordDot)) = "./.".
Proof.
  split; [intros m; split; reflexivity|].
  repeat split; vm_compute; reflexivity.
Qed.

(** ** Samples out of order *)

(** Against C7 as it is worded: a tone from t = 1 ends at t = 4 and appends
    ["-"]; the sample without signal at t = 2 that follows is not rejected:
    it is measured against [soundStopTime = 4] and sets the audio state. *)
Lemma backwards_sample_is_processed :
  deliverAll worked backwards = Returns (performAll worked (ticksOf backwards)) /\
  deliverAll worked backwards <> Throws OrderingError /\
  morseSentence (performAll worked (ticksOf backwards)) = "-" /\
  currentAudioState (performAll worked (ticksOf backwards)) = ListeningNoSound.
Proof.
  assert (A : deliverAll worked backwards =
              Returns (performAll worked (ticksOf backwards))) by reflexivity.
  split; [exact A|]. split; [rewrite A; discriminate|].
  split; vm_compute; reflexivity.
Qed.

Lemma deliverAll_returns (samples : list (float * float)) (m : MicToMorseCode) :
  deliverAll m samples = Returns (performAll m (ticksOf samples)).
Proof.
  unfold performAll. revert m.
  induction samples as [|[t level] samples IH]; intros m; simpl; [reflexivity|].
  apply IH.
Qed.

(** C7, amended: no sample is rejected, whatever its time: every run of
    samples returns normally, each sample going through the same debounce
    and duration comparisons.  When the difference the debounce looks at
    (time minus [soundStopTime] for a sample with signal, time minus
    [soundStartTime] for one without) is negative and [debounceTime] is not,
    the sample is ignored. *)
Theorem out_of_order_sample_not_rejected
  (m : MicToMorseCode) (samples : list (float * float)) (t level : float) :
  deliverAll m samples = Returns (performAll m (ticksOf samples)) /\
  ((0 <=? debounceTime m)%float = true ->
   signalPresent m level = true ->
   (t - soundStopTime m <? 0)%float = true ->
   onMicTime m t level = m) /\
  ((0 <=? debounceTime m)%float = true ->
   signalPresent m level = false ->
   (t - soundStartTime m <? 0)%float = true ->
   onMicTime m t level = m).
Proof.
  split; [apply deliverAll_returns|]. split.
  - intros Hd P N. unfold onMicTime. unfold signalPresent in P. rewrite P.
    unfold logStartTime. now rewrite (ltb_leb_trans _ _ _ N Hd).
  - intros Hd P N. unfold onMicTime. unfold signalPresent in P. rewrite P.
    apply logEndTime_debounced. exact (ltb_leb_trans _ _ _ N Hd).
Qed.

Lemma out_of_order_sample_not_rejected_witness :
  deliverAll worked backwards = Returns (performAll worked (ticksOf backwards)) /\
  (0 <=? debounceTime (performAll worked (ticksOf backwards)))%float = true /\
  signalPresent (performAll worked (ticksOf backwards)) loud = true /\
  (3 - soundStopTime (performAll worked (ticksOf backwards)) <? 0)%float = true /\
  onMicTime (performAll worked (ticksOf backwards)) 3 loud =
    performAll worked (ticksOf backwards).
Proof.
  assert (Hd : (0 <=? debounceTime (performAll worked (ticksOf backwards)))%float = true)
    by (vm_compute; reflexivity).
  assert (P : signalPresent (performAll worked (ticksOf backwards)) loud = true)
    by (vm_compute; reflexivity).
  assert (N : (3 - soundStopTime (performAll worked (ticksOf backwards)) <? 0)%float = true)
    by (vm_compute; reflexivity).
  pose proof (out_of_order_sample_not_rejected worked backwards 3 loud) as [A _].
  pose proof (out_of_order_sample_not_rejected
                (performAll worked (ticksOf backwards)) [] 3 loud) as [_ [B _]].
  exact (conj A (conj Hd (conj P (conj N (B Hd P N))))).
Defined.

(** ** Further properties: samples with signal *)

Section MoreFrames.

Lemma soundStopTime_changeAudioState (m : MicToMorseCode) (state : AudioState) :
  soundStopTime (changeAudioState m state) = soundStopTime m.
Proof.
  unfold changeAudioState.
  now destruct (AudioState_eqb (currentAudioState m) state).
Qed.

Lemma soundStartTime_changeAudioState (m : MicToMorseCode) (state : AudioState) :
  soundStartTime (changeAudioState m state) = soundStartTime m.
Proof.
  unfold changeAudioState.
  now destruct (AudioState_eqb (currentAudioState m) state).
Qed.

Lemma currentAudioState_changeAudioState (m : MicToMorseCode) (state : AudioState) :
  currentAudioState (changeAudioState m state) = state.
Proof.
  unfold changeAudioState.
  destruct (AudioState_eqb (currentAudioState m) state) eqn:E; [|reflexivity].
  now apply AudioState_eqb_eq.
Qed.

Lemma currentAudioState_addCharacter (m : MicToMorseCode) (character : string) :
  currentAudioState (addCharacter m character) = currentAudioState m.
Proof.
  unfold addCharacter.
  destruct (String.eqb character wordDelimiter),
           (String.eqb character characterDelimiter); reflexivity.
Qed.

Lemma growsBy_refl (P : event -> Prop) (es : list event) : growsBy P es es.
Proof. exists []. split; [now rewrite app_nil_r | constructor]. Qed.

Lemma growsBy_trans (P : event -> Prop) (a b c : list event) :
  growsBy P a b -> growsBy P b c -> growsBy P a c.
Proof.
  intros (e1 & -> & F1) (e2 & -> & F2). exists (e1 ++ e2)%list.
  split; [now rewrite app_assoc | now apply Forall_app].
Qed.

Lemma growsBy_changeAudioState
  (P : event -> Prop) (m : MicToMorseCode) (state : AudioState) :
  (forall current previous, P (OnAudioStateChange current previous)) ->
  growsBy P (fired m) (fired (changeAudioState m state)).
Proof.
  intros HP. unfold changeAudioState.
  destruct (AudioState_eqb (currentAudioState m) state);
    [apply growsBy_refl|].
  eexists. split; [reflexivity|]. constructor; [apply HP | constructor].
Qed.

End MoreFrames.

(** X1: a sample with signal never writes: [logStartTime] leaves the
    sentence and [soundStopTime] as they are, and the only handler it can
    call is the audio-state one. *)
Theorem signal_never_writes (m : MicToMorseCode) (t : float) :
  morseSentence (logStartTime m t) = morseSentence m /\
  soundStopTime (logStartTime m t) = soundStopTime m /\
  growsBy isAudioEvent (fired m) (fired (logStartTime m t)).
Proof.
  split; [apply sentence_logStartTime|].
  unfold logStartTime.
  destruct (_ <? debounceTime m)%float;
    [split; [reflexivity | apply growsBy_refl]|].
  destruct (wasSound m).
  - destruct (dashTime m <? _)%float;
      [split; [apply soundStopTime_changeAudioState
              | now apply growsBy_changeAudioState]|].
    destruct (dotTime m <? _)%float;
      [split; [apply soundStopTime_changeAudioState
              | now apply growsBy_changeAudioState]|].
    split; [reflexivity | apply growsBy_refl].
  - simpl. split; [apply soundStopTime_changeAudioState
                  | now apply growsBy_changeAudioState].
Qed.

(** X2: a sample with signal that is not debounced and arrives while
    [lastState] is [NoSound] starts a tone: [lastState] becomes [Sound],
    [soundStartTime] the sample's time and the audio state
    [ListeningSound]; [soundStopTime] and the sentence stay. *)
Theorem tone_start_registered (m : MicToMorseCode) (t : float) :
  (t - soundStopTime m <? debounceTime m)%float = false ->
  lastState m = NoSound ->
  lastState (logStartTime m t) = Sound /\
  soundStartTime (logStartTime m t) = t /\
  soundStopTime (logStartTime m t) = soundStopTime m /\
  currentAudioState (logStartTime m t) = ListeningSound /\
  morseSentence (logStartTime m t) = morseSentence m.
Proof.
  intros D L. unfold logStartTime, wasSound. rewrite D, L. simpl.
  rewrite soundStopTime_changeAudioState, currentAudioState_changeAudioState,
    sentence_changeAudioState.
  now repeat split.
Qed.

Lemma tone_start_registered_witness :
  (1.5 - soundStopTime afterDot <? debounceTime afterDot)%float = false /\
  lastState afterDot = NoSound /\
  lastState (logStartTime afterDot 1.5) = Sound /\
  soundStartTime (logStartTime afterDot 1.5) = 1.5%float /\
  soundStopTime (logStartTime afterDot 1.5) = soundStopTime afterDot /\
  currentAudioState (logStartTime afterDot 1.5) = ListeningSound /\
  morseSentence (logStartTime afterDot 1.5) = morseSentence afterDot.
Proof.
  assert (D : (1.5 - soundStopTime afterDot <? debounceTime afterDot)%float = false)
    by (vm_compute; reflexivity).
  assert (L : lastState afterDot = NoSound) by (vm_compute; reflexivity).
  exact (conj D (conj L (tone_start_registered afterDot 1.5 D L))).
Defined.

(** X3: after a sample that is not debounced, [lastState] says what the
    sample was: [Sound] after one with signal, [NoSound] after one without,
    whatever branch was taken. *)
Theorem listening_state_follows_sample (m : MicToMorseCode) (t : float) :
  ((t - soundStopTime m <? debounceTime m)%float = false ->
   lastState (logStartTime m t) = Sound) /\
  ((t - soundStartTime m <? debounceTime m)%float = false ->
   lastState (logEndTime m t) = NoSound).
Proof.
  split; intros D.
  - unfold logStartTime, wasSound. rewrite D.
    destruct (lastState m) eqn:L; [reflexivity|].
    destruct (dashTime m <? _)%float;
      [now rewrite lastState_changeAudioState|].
    destruct (dotTime m <? _)%float;
      [now rewrite lastState_changeAudioState | exact L].
  - unfold logEndTime, wasNoSound, wasSound. rewrite D.
    destruct (lastState m) eqn:L; simpl andb; cbv iota.
    + destruct (wordTime m <? _)%float.
      { destruct (Nat.eqb _ 0); [now rewrite lastState_changeAudioState|].
        destruct (Js.strictEq _ wordDelimiter);
          [now rewrite lastState_changeAudioState|].
        rewrite lastState_addCharacter.
        destruct (Js.strictEq _ characterDelimiter); simpl;
          now rewrite lastState_changeAudioState. }
      destruct (characterTime m <? _)%float.
      { destruct (Nat.eqb _ 0); [now rewrite lastState_changeAudioState|].
        destruct (isDelimiter _); [now rewrite lastState_changeAudioState|].
        now rewrite lastState_addCharacter, lastState_changeAudioState. }
      now rewrite lastState_changeAudioState.
    + cbv zeta.
      destruct (dashTime _ <? _)%float; [now rewrite lastState_addCharacter|].
      destruct (dotTime _ <? _)%float; [now rewrite lastState_addCharacter|].
      reflexivity.
Qed.

(** X4: while a tone sounds, the length the audio state shows at a sample
    with signal is the symbol a sample without signal at the same time
    would append: [DashLength] and ["-"], [DotLength] and ["."], or no
    change of state and no symbol. *)
Theorem tone_length_shown_matches_symbol (m : MicToMorseCode) (t : float) :
  lastState m = Sound ->
  (t - soundStopTime m <? debounceTime m)%float = false ->
  (t - soundStartTime m <? debounceTime m)%float = false ->
  let onTime := (t - soundStartTime m)%float in
  ((dashTime m <? onTime)%float = true ->
   currentAudioState (logStartTime m t) = DashLength /\
   morseSentence (logEndTime m t) = morseSentence m ++ "-") /\
  ((dashTime m <? onTime)%float = false ->
   (dotTime m <? onTime)%float = true ->
   currentAudioState (logStartTime m t) = DotLength /\
   morseSentence (logEndTime m t) = morseSentence m ++ ".") /\
  ((dashTime m <? onTime)%float = false ->
   (dotTime m <? onTime)%float = false ->
   logStartTime m t = m /\
   morseSentence (logEndTime m t) = morseSentence m).
Proof.
  intros L D1 D2 onTime.
  rewrite (logEndTime_toneEnd m t D2 L). fold onTime. cbv zeta.
  unfold logStartTime, wasSound. rewrite D1, L. fold onTime.
  split; [|split].
  - intros Hdash. rewrite Hdash. split.
    + apply currentAudioState_changeAudioState.
    + now rewrite sentence_addCharacter.
  - intros Hdash Hdot. rewrite Hdash, Hdot. split.
    + apply currentAudioState_changeAudioState.
    + now rewrite sentence_addCharacter.
  - intros Hdash Hdot. rewrite Hdash, Hdot. now split.
Qed.

Lemma tone_length_shown_matches_symbol_witness :
  lastState duringTone = Sound /\
  (0.9 - soundStopTime duringTone <? debounceTime duringTone)%float = false /\
  (0.9 - soundStartTime duringTone <? debounceTime duringTone)%float = false /\
  currentAudioState (logStartTime duringTone 0.9) = DotLength /\
  morseSentence (logEndTime duringTone 0.9) = morseSentence duringTone ++ ".".
Proof.
  assert (L : lastState duringTone = Sound) by (vm_compute; reflexivity).
  assert (D1 : (0.9 - soundStopTime duringTone <? debounceTime duringTone)%float
               = false) by (vm_compute; reflexivity).
  assert (D2 : (0.9 - soundStartTime duringTone <? debounceTime duringTone)%float
               = false) by (vm_compute; reflexivity).
  assert (H1 : (dashTime duringTone <? 0.9 - soundStartTime duringTone)%float
               = false) by (vm_compute; reflexivity).
  assert (H2 : (dotTime duringTone <? 0.9 - soundStartTime duringTone)%float
               = true) by (vm_compute; reflexivity).
  pose proof (tone_length_shown_matches_symbol duringTone 0.9 L D1 D2) as K.
  cbv zeta in K. destruct K as (_ & K & _).
  exact (conj L (conj D1 (conj D2 (K H1 H2)))).
Defined.

(** ** Further properties: what the end handlers are given *)

Section Split.

Lemma splitFrom_not_nil (sep : string) (s : string) (skip : nat) (seg : string) :
  Js.splitFrom sep skip seg s <> [].
Proof.
  revert skip seg. induction s as [|c s IH]; intros skip seg;
    cbn [Js.splitFrom]; [discriminate|].
  destruct skip as [|k]; [|apply IH].
  destruct (String.prefix sep (String c s)); [discriminate | apply IH].
Qed.

Lemma lastElement_cons (x : string) (l : list string) :
  l <> [] -> Js.lastElement (x :: l) = Js.lastElement l.
Proof.
  destruct l as [|y l]; [now intros []|]. intros _.
  unfold Js.lastElement. simpl. now rewrite Nat.sub_0_r.
Qed.

(** Split on a one-character separator, a string that ends in the separator
    has the empty string as its last segment. *)
Lemma splitFrom_trailing_separator (d : ascii) (s seg : string) :
  Js.lastElement (Js.splitFrom (String d "") 0 seg (s ++ String d "")) = Some "".
Proof.
  revert seg. induction s as [|c s IH]; intros seg.
  - simpl. destruct (ascii_dec d d) as [_|N]; [reflexivity | now destruct N].
  - change ((String c s) ++ String d "") with (String c (s ++ String d "")).
    cbn [Js.splitFrom].
    destruct (String.prefix (String d "") (String c (s ++ String d ""))).
    + rewrite lastElement_cons; [apply IH | apply splitFrom_not_nil].
    + apply IH.
Qed.

Lemma split_trailing_separator (d : ascii) (s : string) :
  Js.lastElement (Js.split (s ++ String d "") (String d "")) = Some "".
Proof. apply splitFrom_trailing_separator. Qed.

End Split.

(** ** Further properties: what the methods are made of *)

Section Evolution.

Lemma evolves_one (m m' : MicToMorseCode) : primitive m m' -> evolves m m'.
Proof. intros P. eapply evolves_step; [apply evolves_refl | exact P]. Qed.

Lemma evolves_trans (a b c : MicToMorseCode) :
  evolves a b -> evolves b c -> evolves a c.
Proof.
  intros Hab Hbc. induction Hbc as [|b c d _ IH P]; [exact Hab|].
  eapply evolves_step; [apply IH; exact Hab | exact P].
Qed.

Lemma evolves_changeAudioState (m : MicToMorseCode) (state : AudioState) :
  evolves m (changeAudioState m state).
Proof. apply evolves_one. constructor. Qed.

Lemma evolves_logStartTime (m : MicToMorseCode) (t : float) :
  evolves m (logStartTime m t).
Proof.
  unfold logStartTime.
  destruct (_ <? debounceTime m)%float; [apply evolves_refl|].
  destruct (wasSound m).
  - destruct (dashTime m <? _)%float; [apply evolves_changeAudioState|].
    destruct (dotTime m <? _)%float; [apply evolves_changeAudioState|].
    apply evolves_refl.
  - cbv zeta.
    eapply evolves_step; [|apply p_soundStartTime].
    eapply evolves_step; [|apply p_lastState].
    apply evolves_changeAudioState.
Qed.

Lemma evolves_logEndTime (m : MicToMorseCode) (t : float) :
  evolves m (logEndTime m t).
Proof.
  unfold logEndTime.
  destruct (_ <? debounceTime m)%float; [apply evolves_refl|].
  destruct (wasNoSound m && _)%bool.
  { destruct (Nat.eqb _ 0); [apply evolves_changeAudioState|].
    destruct (Js.strictEq _ wordDelimiter); [apply evolves_changeAudioState|].
    destruct (Js.strictEq _ characterDelimiter).
    - eapply evolves_step; [apply evolves_changeAudioState|].
      apply p_replaceDelimiter.
    - eapply evolves_step; [apply evolves_changeAudioState|].
      apply p_addCharacter. }
  destruct (wasNoSound m && _)%bool.
  { destruct (Nat.eqb _ 0); [apply evolves_changeAudioState|].
    destruct (isDelimiter _); [apply evolves_changeAudioState|].
    eapply evolves_step; [apply evolves_changeAudioState|].
    apply p_addCharacter. }
  destruct (wasNoSound m); [apply evolves_changeAudioState|].
  destruct (wasSound m); [|apply evolves_refl].
  cbv zeta.
  assert (E : evolves m (set_lastState (set_soundStopTime m t) NoSound)).
  { eapply evolves_step; [|apply p_lastState].
    apply evolves_one. apply p_soundStopTime. }
  destruct (dashTime _ <? _)%float;
    [eapply evolves_step; [exact E | apply p_addCharacter]|].
  destruct (dotTime _ <? _)%float;
    [eapply evolves_step; [exact E | apply p_addCharacter]|].
  exact E.
Qed.

Lemma evolves_perform (m : MicToMorseCode) (c : call) :
  evolves m (perform m c).
Proof.
  destruct c; simpl; try (apply evolves_one; constructor).
  unfold onMicTime. destruct (threshold m <? level)%float;
    [apply evolves_logStartTime | apply evolves_logEndTime].
Qed.

(** What every primitive keeps, every public call keeps. *)
Lemma evolves_invariant (I : MicToMorseCode -> Prop) :
  (forall m m', primitive m m' -> I m -> I m') ->
  forall m m', evolves m m' -> I m -> I m'.
Proof.
  intros Step m m' E. induction E as [|a b c _ IH P]; [trivial|].
  intros Ia. apply (Step b c P). now apply IH.
Qed.

Lemma performAll_invariant (I : MicToMorseCode -> Prop) :
  (forall m m', primitive m m' -> I m -> I m') ->
  forall cs m, I m -> I (performAll m cs).
Proof.
  intros Step. unfold performAll.
  induction cs as [|c cs IH]; intros m Im; simpl; [exact Im|].
  apply IH. exact (evolves_invariant I Step _ _ (evolves_perform m c) Im).
Qed.

Lemma reachable_invariant (I : MicToMorseCode -> Prop) :
  (forall thr res dot dash chr wrd deb, I (new thr res dot dash chr wrd deb)) ->
  (forall m m', primitive m m' -> I m -> I m') ->
  forall m, reachable m -> I m.
Proof.
  intros Init Step m R. induction R as [|m c _ IH]; [apply Init|].
  exact (evolves_invariant I Step _ _ (evolves_perform m c) IH).
Qed.

End Evolution.

Section Logs.

Lemma fired_addCharacter (m : MicToMorseCode) (character : string) :
  fired (addCharacter m character) =
  (fired m
   ++ (if String.eqb character wordDelimiter
       then [OnWordEnd (Js.lastElement
                          (Js.split (morseSentence m ++ character) wordDelimiter))]
       else [])
   ++ (if String.eqb character characterDelimiter
       then [OnCharacterEnd (Js.lastElement
               (Js.split (morseSentence m ++ character) characterDelimiter))]
       else [])
   ++ [OnChange (morseSentence m ++ character) (morseSentence m)])%list.
Proof.
  unfold addCharacter.
  destruct (String.eqb character wordDelimiter),
           (String.eqb character characterDelimiter); simpl;
    rewrite <- ?app_assoc; reflexivity.
Qed.

Lemma fired_changeAudioState (m : MicToMorseCode) (state : AudioState) :
  fired (changeAudioState m state) =
  (fired m
   ++ (if AudioState_eqb (currentAudioState m) state then []
       else [OnAudioStateChange state (currentAudioState m)]))%list.
Proof.
  unfold changeAudioState.
  destruct (AudioState_eqb (currentAudioState m) state);
    [now rewrite app_nil_r | reflexivity].
Qed.

Lemma emptySegment_addCharacter (m : MicToMorseCode) (character : string) :
  growsBy emptySegment (fired m) (fired (addCharacter m character)).
Proof.
  rewrite fired_addCharacter. eexists. split; [reflexivity|].
  apply Forall_app. split; [|apply Forall_app; split].
  - destruct (String.eqb_spec character wordDelimiter) as [->|_];
      [|constructor].
    constructor; [|constructor].
    apply (split_trailing_separator "/" (morseSentence m)).
  - destruct (String.eqb_spec character characterDelimiter) as [->|_];
      [|constructor].
    constructor; [|constructor].
    apply (split_trailing_separator " " (morseSentence m)).
  - repeat constructor.
Qed.

Lemma emptySegment_primitive (m m' : MicToMorseCode) :
  primitive m m' -> growsBy emptySegment (fired m) (fired m').
Proof.
  intros P. destruct P; try apply growsBy_refl.
  - now apply growsBy_changeAudioState.
  - apply emptySegment_addCharacter.
  - apply (emptySegment_addCharacter (removeLastLetterFromMorse m)).
  - eexists. split; [reflexivity | repeat constructor].
  - eexists. split; [reflexivity | repeat constructor].
  - eexists. split; [reflexivity | repeat constructor].
Qed.

Lemma lastChangeFrom_app (es es' : list event) (held : option string) :
  lastChangeFrom held (es ++ es') = lastChangeFrom (lastChangeFrom held es) es'.
Proof.
  revert held. induction es as [|e es IH]; intros held; [reflexivity|].
  destruct e; simpl; apply IH.
Qed.

Lemma lastChange_primitive (m m' : MicToMorseCode) :
  primitive m m' ->
  lastChangeFrom (Some "") (fired m) = Some (morseSentence m) ->
  lastChangeFrom (Some "") (fired m') = Some (morseSentence m').
Proof.
  intros P K. destruct P; try exact K.
  - rewrite fired_changeAudioState, sentence_changeAudioState,
      lastChangeFrom_app, K.
    now destruct (AudioState_eqb (currentAudioState m) state).
  - rewrite fired_addCharacter, sentence_addCharacter, !lastChangeFrom_app.
    now destruct (String.eqb character wordDelimiter),
                 (String.eqb character characterDelimiter).
  - rewrite fired_addCharacter, sentence_addCharacter, !lastChangeFrom_app.
    reflexivity.
  - unfold clearSentence, emitSentenceChangeEvent, fire. simpl.
    now rewrite lastChangeFrom_app.
  - unfold deleteCharacter, emitSentenceChangeEvent, fire. simpl.
    now rewrite lastChangeFrom_app.
  - unfold deleteWord, emitSentenceChangeEvent, fire. simpl.
    now rewrite lastChangeFrom_app.
Qed.

Lemma replayAudio_app (es es' : list event) (held : AudioState) :
  replayAudio held (es ++ es') =
  match replayAudio held es with
  | Some held' => replayAudio held' es'
  | None => None
  end.
Proof.
  revert held. induction es as [|e es IH]; intros held; [reflexivity|].
  destruct e; simpl; try apply IH.
  destruct (AudioState_eqb previous held); [apply IH | reflexivity].
Qed.

Lemma replayAudio_primitive (m m' : MicToMorseCode) :
  primitive m m' ->
  replayAudio NotListening (fired m) = Some (currentAudioState m) ->
  replayAudio NotListening (fired m') = Some (currentAudioState m').
Proof.
  intros P J. destruct P; try exact J.
  - rewrite fired_changeAudioState, currentAudioState_changeAudioState,
      replayAudio_app, J.
    destruct (AudioState_eqb (currentAudioState m) state) eqn:E; simpl.
    + f_equal. now apply AudioState_eqb_eq.
    + now rewrite (proj2 (AudioState_eqb_eq _ _) eq_refl).
  - rewrite fired_addCharacter, currentAudioState_addCharacter,
      !replayAudio_app, J.
    now destruct (String.eqb character wordDelimiter),
                 (String.eqb character characterDelimiter).
  - rewrite fired_addCharacter, currentAudioState_addCharacter,
      !replayAudio_app.
    change (fired (removeLastLetterFromMorse m)) with (fired m). rewrite J.
    reflexivity.
  - unfold clearSentence, emitSentenceChangeEvent, fire. simpl.
    now rewrite replayAudio_app, J.
  - unfold deleteCharacter, emitSentenceChangeEvent, fire. simpl.
    now rewrite replayAudio_app, J.
  - unfold deleteWord, emitSentenceChangeEvent, fire. simpl.
    now rewrite replayAudio_app, J.
Qed.

End Logs.

(** X8: whatever calls are made on an instance, every call of the
    character-end handler and of the word-end handler they add to the log
    is given the empty string: the sentence is split after the delimiter
    has been appended, so its last segment is empty. *)
Theorem end_handlers_receive_empty_segment (m : MicToMorseCode) (cs : list call) :
  growsBy emptySegment (fired m) (fired (performAll m cs)).
Proof.
  apply (performAll_invariant (fun m' => growsBy emptySegment (fired m) (fired m'))).
  - intros a b P G. eapply growsBy_trans; [exact G|].
    now apply emptySegment_primitive.
  - apply growsBy_refl.
Qed.

(** X11: on an instance a constructor call and any calls have led to, a
    listener that starts from the empty string and keeps the [current]
    argument of every call of the change handler holds the sentence: the
    last change reported is always the sentence as it is. *)
Theorem last_change_event_carries_sentence (m : MicToMorseCode) :
  reachable m ->
  lastChangeFrom (Some "") (fired m) = Some (getMorseString m).
Proof.
  apply (reachable_invariant
           (fun m => lastChangeFrom (Some "") (fired m) = Some (getMorseString m))).
  - reflexivity.
  - exact lastChange_primitive.
Qed.

Lemma last_change_event_carries_sentence_witness :
  reachable (performAll worked dotThenLongGap) /\
  lastChangeFrom (Some "") (fired (performAll worked dotThenLongGap)) =
    Some (getMorseString (performAll worked dotThenLongGap)).
Proof.
  assert (R : reachable (performAll worked dotThenLongGap))
    by (apply reachable_performAll; apply reachable_new).
  exact (conj R (last_change_event_carries_sentence _ R)).
Defined.

(** X12: on an instance a constructor call and any calls have led to, the
    calls of the audio-state handler chain: the first gives
    [NotListening] as [previous], each later one gives the [current] of the
    one before, and the [current] of the last is the audio state held. *)
Theorem audio_events_replay_to_state (m : MicToMorseCode) :
  reachable m ->
  replayAudio NotListening (fired m) = Some (currentAudioState m).
Proof.
  apply (reachable_invariant
           (fun m => replayAudio NotListening (fired m) = Some (currentAudioState m))).
  - reflexivity.
  - exact replayAudio_primitive.
Qed.

Lemma audio_events_replay_to_state_witness :
  reachable (performAll worked dotThenLongGap) /\
  replayAudio NotListening (fired (performAll worked dotThenLongGap)) =
    Some (currentAudioState (performAll worked dotThenLongGap)).
Proof.
  assert (R : reachable (performAll worked dotThenLongGap))
    by (apply reachable_performAll; apply reachable_new).
  exact (conj R (audio_events_replay_to_state _ R)).
Defined.

(** X9: whatever calls are made on an instance whose sentence is empty,
    every character of the sentence is one of ['.'], ['-'], the character
    delimiter and the word delimiter. *)
Theorem sentence_alphabet (m : MicToMorseCode) (cs : list call) :
  morseSentence m = "" ->
  forall i c, String.get i (morseSentence (performAll m cs)) = Some c ->
    c = "."%char \/ c = "-"%char \/ c = " "%char \/ c = "/"%char.
Proof.
  intros E i c G.
  assert (W : wellDelimited (morseSentence (performAll m cs))).
  { apply wellDelimited_performAll. rewrite E. apply wellDelimited_empty. }
  unfold wellDelimited in W.
  destruct (scan None (morseSentence (performAll m cs))) as [l|] eqn:S;
    [|contradiction].
  destruct (scan_positions _ _ _ S i c G) as [[K|K] _].
  - unfold isSymbolChar in K.
    destruct (Ascii.eqb_spec c "."), (Ascii.eqb_spec c "-"); auto; discriminate.
  - unfold isDelimiterChar in K.
    destruct (Ascii.eqb_spec c " "), (Ascii.eqb_spec c "/"); auto; discriminate.
Qed.

Lemma sentence_alphabet_witness :
  morseSentence worked = "" /\
  forall i c, String.get i (morseSentence (performAll worked dotWordDot)) = Some c ->
    c = "."%char \/ c = "-"%char \/ c = " "%char \/ c = "/"%char.
Proof.
  exact (conj eq_refl (sentence_alphabet worked dotWordDot eq_refl)).
Defined.

(** ** Further properties: what a sample without signal can append *)

Section Appends.




(** Every way [logEndTime] can change the sentence, with the test that
    leads to it. *)
Lemma logEndTime_sentence_cases (m : MicToMorseCode) (t : float) :
  morseSentence (logEndTime m t) = morseSentence m \/
  (t - soundStartTime m <? debounceTime m)%float = false /\
  ((lastState m = Sound /\
    (dashTime m <? t - soundStartTime m)%float = true /\
    morseSentence (logEndTime m t) = morseSentence m ++ "-") \/
   (lastState m = Sound /\
    (dashTime m <? t - soundStartTime m)%float = false /\
    (dotTime m <? t - soundStartTime m)%float = true /\
    morseSentence (logEndTime m t) = morseSentence m ++ ".") \/
   (lastState m = NoSound /\
    (wordTime m <? t - soundStopTime m)%float = false /\
    (characterTime m <? t - soundStopTime m)%float = true /\
    morseSentence (logEndTime m t) = morseSentence m ++ characterDelimiter) \/
   (lastState m = NoSound /\
    (wordTime m <? t - soundStopTime m)%float = true /\
    (morseSentence (logEndTime m t) = morseSentence m ++ wordDelimiter \/
     exists body, morseSentence m = body ++ characterDelimiter /\
                  morseSentence (logEndTime m t) = body ++ wordDelimiter))).
Proof.
  destruct (t - soundStartTime m <? debounceTime m)%float eqn:D;
    [left; now rewrite logEndTime_debounced|].
  destruct (lastState m) eqn:L.
  - destruct (wordTime m <? t - soundStopTime m)%float eqn:W.
    + rewrite (logEndTime_wordGap m t D L W). cbv zeta.
      rewrite sentence_changeAudioState.
      destruct (Nat.eqb_spec (String.length (morseSentence m)) 0) as [Z|NZ];
        [left; apply sentence_changeAudioState|].
      destruct (snoc_inv _ NZ) as (s & c & E).
      assert (Hl : Js.lastIndex (morseSentence m) = Some (String c ""))
        by (rewrite E; apply lastIndex_snoc).
      rewrite Hl. unfold wordDelimiter, characterDelimiter.
      rewrite !strictEq_char.
      destruct (Ascii.eqb_spec c "/") as [_|_];
        [left; apply sentence_changeAudioState|].
      right. split; [reflexivity|]. do 3 right.
      split; [reflexivity|]. split; [reflexivity|].
      rewrite sentence_addCharacter.
      destruct (Ascii.eqb_spec c " ") as [->|_].
      * right. exists s. split; [exact E|].
        unfold removeLastLetterFromMorse. simpl morseSentence.
        now rewrite sentence_changeAudioState, E, replaceLastChar_snoc.
      * left. now rewrite sentence_changeAudioState.
    + destruct (characterTime m <? t - soundStopTime m)%float eqn:C.
      * rewrite (logEndTime_characterGap m t D L W C). cbv zeta.
        destruct (Nat.eqb _ 0); [left; apply sentence_changeAudioState|].
        destruct (isDelimiter _); [left; apply sentence_changeAudioState|].
        right. split; [reflexivity|]. do 2 right. left.
        split; [reflexivity|]. split; [reflexivity|]. split; [reflexivity|].
        now rewrite sentence_addCharacter, sentence_changeAudioState.
      * left. rewrite (logEndTime_shortGap m t D L W C).
        apply sentence_changeAudioState.
  - rewrite (logEndTime_toneEnd m t D L). cbv zeta.
    destruct (dashTime m <? t - soundStartTime m)%float.
    + right. split; [reflexivity|]. left.
      split; [reflexivity|]. split; [reflexivity|].
      now rewrite sentence_addCharacter.
    + destruct (dotTime m <? t - soundStartTime m)%float.
      * right. split; [reflexivity|]. right. left.
        split; [reflexivity|]. split; [reflexivity|]. split; [reflexivity|].
        now rewrite sentence_addCharacter.
      * now left.
Qed.

End Appends.

(** X10: a tick of the timer changes the sentence in one of these ways
    only: not at all; by ["-"] or ["."] at its end, when a tone ends
    ([lastState] was [Sound]) with the matching length; by the character
    delimiter, when silence has lasted more than [characterTime] and not more
    than [wordTime]; by the word delimiter, added or put in place of a
    trailing character delimiter, when silence has lasted more than
    [wordTime].  So the sentence never gets shorter and grows by one
    character at most. *)
Theorem tick_sentence_cases (m : MicToMorseCode) (t level : float) :
  let s := morseSentence m in
  let s' := morseSentence (onMicTime m t level) in
  (s' = s \/
   signalPresent m level = false /\
   ((lastState m = Sound /\
     (dashTime m <? t - soundStartTime m)%float = true /\ s' = s ++ "-") \/
    (lastState m = Sound /\
     (dashTime m <? t - soundStartTime m)%float = false /\
     (dotTime m <? t - soundStartTime m)%float = true /\ s' = s ++ ".") \/
    (lastState m = NoSound /\
     (wordTime m <? t - soundStopTime m)%float = false /\
     (characterTime m <? t - soundStopTime m)%float = true /\
     s' = s ++ characterDelimiter) \/
    (lastState m = NoSound /\
     (wordTime m <? t - soundStopTime m)%float = true /\
     (s' = s ++ wordDelimiter \/
      exists body, s = body ++ characterDelimiter /\ s' = body ++ wordDelimiter)))) /\
  String.length s <= String.length s' <= S (String.length s).
Proof.
  intros s s'.
  assert (K : s' = s \/
   signalPresent m level = false /\
   ((lastState m = Sound /\
     (dashTime m <? t - soundStartTime m)%float = true /\ s' = s ++ "-") \/
    (lastState m = Sound /\
     (dashTime m <? t - soundStartTime m)%float = false /\
     (dotTime m <? t - soundStartTime m)%float = true /\ s' = s ++ ".") \/
    (lastState m = NoSound /\
     (wordTime m <? t - soundStopTime m)%float = false /\
     (characterTime m <? t - soundStopTime m)%float = true /\
     s' = s ++ characterDelimiter) \/
    (lastState m = NoSound /\
     (wordTime m <? t - soundStopTime m)%float = true /\
     (s' = s ++ wordDelimiter \/
      exists body, s = body ++ characterDelimiter /\ s' = body ++ wordDelimiter)))).
  { unfold s', s, onMicTime, signalPresent.
    destruct (threshold m <? level)%float;
      [left; apply sentence_logStartTime|].
    destruct (logEndTime_sentence_cases m t) as [E|[_ C]]; [now left|].
    right. split; [reflexivity | exact C]. }
  split; [exact K|].
  destruct K as [->|[_ [(_ & _ & ->)|[(_ & _ & _ & ->)|[(_ & _ & _ & ->)
    |(_ & _ & [->|(body & Es & ->)])]]]]];
    unfold characterDelimiter, wordDelimiter; rewrite ?length_snoc; try lia.
  fold s in Es. rewrite Es. unfold characterDelimiter.
  rewrite !length_snoc. lia.
Qed.



(** ** Further properties: gaps *)

Section Gaps.

Lemma characterEnds_app (es es' : list event) :
  characterEnds (es ++ es') = (characterEnds es ++ characterEnds es')%list.
Proof.
  induction es as [|e es IH]; [reflexivity|].
  destruct e; simpl; now rewrite IH.
Qed.

Lemma wordEnds_app (es es' : list event) :
  wordEnds (es ++ es') = (wordEnds es ++ wordEnds es')%list.
Proof.
  induction es as [|e es IH]; [reflexivity|].
  destruct e; simpl; now rewrite IH.
Qed.

Lemma characterEnds_changeAudioState (m : MicToMorseCode) (state : AudioState) :
  characterEnds (fired (changeAudioState m state)) = characterEnds (fired m).
Proof.
  rewrite fired_changeAudioState, characterEnds_app.
  destruct (AudioState_eqb (currentAudioState m) state); simpl;
    now rewrite app_nil_r.
Qed.

Lemma wordEnds_changeAudioState (m : MicToMorseCode) (state : AudioState) :
  wordEnds (fired (changeAudioState m state)) = wordEnds (fired m).
Proof.
  rewrite fired_changeAudioState, wordEnds_app.
  destruct (AudioState_eqb (currentAudioState m) state); simpl;
    now rewrite app_nil_r.
Qed.

Lemma length_zero_empty (s : string) : String.length s = 0 -> s = "".
Proof. destruct s; [reflexivity | discriminate]. Qed.

(** Without signal, on an empty sentence and with no tone begun, a tick
    changes at most the audio state. *)
Lemma silence_on_empty_sentence (m : MicToMorseCode) (t : float) :
  lastState m = NoSound ->
  morseSentence m = "" ->
  logEndTime m t = m \/
  exists state, logEndTime m t = changeAudioState m state.
Proof.
  intros L E. unfold logEndTime, wasNoSound. rewrite L.
  destruct (_ <? debounceTime m)%float; [now left|]. right.
  simpl andb. rewrite !sentence_changeAudioState, E. simpl Nat.eqb. cbv iota.
  destruct (wordTime m <? _)%float; [now exists WordDelimiterLength|].
  destruct (characterTime m <? _)%float;
    [now exists CharacterDelimiterLength | now exists ListeningNoSound].
Qed.

End Gaps.

(** X5: a sample without signal that is not debounced and arrives while
    [lastState] is [NoSound], with silence longer than [characterTime] and
    not longer than [wordTime], sets the audio state to
    [CharacterDelimiterLength] and leaves [lastState] and [soundStopTime];
    on a sentence that is empty or ends in a delimiter it appends nothing
    and calls no character-end handler; on any other sentence it appends
    the character delimiter and calls the character-end handler once, with
    the empty string. *)
Theorem character_gap_appends_delimiter (m : MicToMorseCode) (t : float) :
  (t - soundStartTime m <? debounceTime m)%float = false ->
  lastState m = NoSound ->
  (wordTime m <? t - soundStopTime m)%float = false ->
  (characterTime m <? t - soundStopTime m)%float = true ->
  currentAudioState (logEndTime m t) = CharacterDelimiterLength /\
  lastState (logEndTime m t) = NoSound /\
  soundStopTime (logEndTime m t) = soundStopTime m /\
  (morseSentence m = "" \/ isDelimiter (Js.lastIndex (morseSentence m)) = true ->
   morseSentence (logEndTime m t) = morseSentence m /\
   characterEnds (fired (logEndTime m t)) = characterEnds (fired m)) /\
  (morseSentence m <> "" ->
   isDelimiter (Js.lastIndex (morseSentence m)) = false ->
   morseSentence (logEndTime m t) = morseSentence m ++ characterDelimiter /\
   characterEnds (fired (logEndTime m t)) =
     (characterEnds (fired m) ++ [Some ""])%list).
Proof.
  intros D L W C. rewrite (logEndTime_characterGap m t D L W C). cbv zeta.
  rewrite sentence_changeAudioState.
  destruct (Nat.eqb_spec (String.length (morseSentence m)) 0) as [Z|NZ].
  - rewrite currentAudioState_changeAudioState, lastState_changeAudioState,
      soundStopTime_changeAudioState, sentence_changeAudioState,
      characterEnds_changeAudioState.
    split; [reflexivity|]. split; [exact L|]. split; [reflexivity|]. split.
    + intros _. now split.
    + intros N. destruct N. now apply length_zero_empty.
  - destruct (isDelimiter (Js.lastIndex (morseSentence m))) eqn:I.
    + rewrite currentAudioState_changeAudioState, lastState_changeAudioState,
        soundStopTime_changeAudioState, sentence_changeAudioState,
        characterEnds_changeAudioState.
      split; [reflexivity|]. split; [exact L|]. split; [reflexivity|]. split.
      * intros _. now split.
      * intros _ Hf. discriminate.
    + rewrite currentAudioState_addCharacter, lastState_addCharacter,
        soundStopTime_addCharacter, sentence_addCharacter,
        currentAudioState_changeAudioState, lastState_changeAudioState,
        soundStopTime_changeAudioState, sentence_changeAudioState,
        fired_addCharacter, sentence_changeAudioState.
      split; [reflexivity|]. split; [exact L|]. split; [reflexivity|].
      split.
      * intros [E|Hf]; [|discriminate]. rewrite E in NZ. now destruct NZ.
      * intros _ _. split; [reflexivity|].
        change (String.eqb characterDelimiter wordDelimiter) with false.
        change (String.eqb characterDelimiter characterDelimiter) with true.
        cbv iota.
        rewrite !characterEnds_app, characterEnds_changeAudioState.
        cbn [characterEnds List.app]. unfold characterDelimiter.
        now rewrite (split_trailing_separator " " (morseSentence m)).
Qed.

Lemma character_gap_appends_delimiter_witness :
  (3 - soundStartTime afterDot <? debounceTime afterDot)%float = false /\
  lastState afterDot = NoSound /\
  (wordTime afterDot <? 3 - soundStopTime afterDot)%float = false /\
  (characterTime afterDot <? 3 - soundStopTime afterDot)%float = true /\
  morseSentence afterDot <> "" /\
  isDelimiter (Js.lastIndex (morseSentence afterDot)) = false /\
  morseSentence (logEndTime afterDot 3) = morseSentence afterDot ++ characterDelimiter /\
  characterEnds (fired (logEndTime afterDot 3)) =
    (characterEnds (fired afterDot) ++ [Some ""])%list.
Proof.
  assert (D : (3 - soundStartTime afterDot <? debounceTime afterDot)%float = false)
    by (vm_compute; reflexivity).
  assert (L : lastState afterDot = NoSound) by (vm_compute; reflexivity).
  assert (W : (wordTime afterDot <? 3 - soundStopTime afterDot)%float = false)
    by (vm_compute; reflexivity).
  assert (C : (characterTime afterDot <? 3 - soundStopTime afterDot)%float = true)
    by (vm_compute; reflexivity).
  assert (N : morseSentence afterDot <> "") by (vm_compute; discriminate).
  assert (I : isDelimiter (Js.lastIndex (morseSentence afterDot)) = false)
    by (vm_compute; reflexivity).
  destruct (character_gap_appends_delimiter afterDot 3 D L W C)
    as (_ & _ & _ & _ & K).
  exact (conj D (conj L (conj W (conj C (conj N (conj I (K N I))))))).
Defined.

(** X6: a sample without signal that is not debounced and arrives while
    [lastState] is [NoSound], with silence longer than [wordTime], sets the
    audio state to [WordDelimiterLength]; on an empty sentence it appends
    nothing and calls no word-end handler; on a sentence that ends in
    neither delimiter it appends the word delimiter and calls the word-end
    handler once, with the empty string, and no character-end handler. *)
Theorem word_gap_after_symbol (m : MicToMorseCode) (t : float) :
  (t - soundStartTime m <? debounceTime m)%float = false ->
  lastState m = NoSound ->
  (wordTime m <? t - soundStopTime m)%float = true ->
  currentAudioState (logEndTime m t) = WordDelimiterLength /\
  (morseSentence m = "" ->
   morseSentence (logEndTime m t) = "" /\
   wordEnds (fired (logEndTime m t)) = wordEnds (fired m)) /\
  (morseSentence m <> "" ->
   isDelimiter (Js.lastIndex (morseSentence m)) = false ->
   morseSentence (logEndTime m t) = morseSentence m ++ wordDelimiter /\
   wordEnds (fired (logEndTime m t)) = (wordEnds (fired m) ++ [Some ""])%list /\
   characterEnds (fired (logEndTime m t)) = characterEnds (fired m)).
Proof.
  intros D L W. rewrite (logEndTime_wordGap m t D L W). cbv zeta.
  rewrite sentence_changeAudioState.
  destruct (Nat.eqb_spec (String.length (morseSentence m)) 0) as [Z|NZ].
  - rewrite currentAudioState_changeAudioState, sentence_changeAudioState,
      wordEnds_changeAudioState.
    split; [reflexivity|]. split; [now intros ->|].
    intros N. destruct N. now apply length_zero_empty.
  - split; [|split].
    + destruct (Js.strictEq _ wordDelimiter);
        [apply currentAudioState_changeAudioState|].
      rewrite currentAudioState_addCharacter.
      destruct (Js.strictEq _ characterDelimiter); simpl;
        apply currentAudioState_changeAudioState.
    + intros E. rewrite E in NZ. now destruct NZ.
    + intros _ I. unfold isDelimiter in I.
      apply orb_false_iff in I. destruct I as [I1 I2]. rewrite I1, I2.
      rewrite sentence_addCharacter, fired_addCharacter,
        !sentence_changeAudioState.
      split; [reflexivity|].
      change (String.eqb wordDelimiter wordDelimiter) with true.
      change (String.eqb wordDelimiter characterDelimiter) with false.
      cbv iota.
      rewrite !wordEnds_app, !characterEnds_app,
        wordEnds_changeAudioState, characterEnds_changeAudioState.
      cbn [wordEnds characterEnds List.app]. rewrite app_nil_r.
      unfold wordDelimiter.
      now rewrite (split_trailing_separator "/" (morseSentence m)).
Qed.

Lemma word_gap_after_symbol_witness :
  (4 - soundStartTime afterDot <? debounceTime afterDot)%float = false /\
  lastState afterDot = NoSound /\
  (wordTime afterDot <? 4 - soundStopTime afterDot)%float = true /\
  morseSentence afterDot <> "" /\
  isDelimiter (Js.lastIndex (morseSentence afterDot)) = false /\
  morseSentence (logEndTime afterDot 4) = morseSentence afterDot ++ wordDelimiter /\
  wordEnds (fired (logEndTime afterDot 4)) =
    (wordEnds (fired afterDot) ++ [Some ""])%list /\
  characterEnds (fired (logEndTime afterDot 4)) = characterEnds (fired afterDot).
Proof.
  assert (D : (4 - soundStartTime afterDot <? debounceTime afterDot)%float = false)
    by (vm_compute; reflexivity).
  assert (L : lastState afterDot = NoSound) by (vm_compute; reflexivity).
  assert (W : (wordTime afterDot <? 4 - soundStopTime afterDot)%float = true)
    by (vm_compute; reflexivity).
  assert (N : morseSentence afterDot <> "") by (vm_compute; discriminate).
  assert (I : isDelimiter (Js.lastIndex (morseSentence afterDot)) = false)
    by (vm_compute; reflexivity).
  destruct (word_gap_after_symbol afterDot 4 D L W) as (_ & _ & K).
  exact (conj D (conj L (conj W (conj N (conj I (K N I)))))).
Defined.

(** X7: on an instance whose sentence is empty and whose [lastState] is
    [NoSound], samples without signal, however many and however late, leave
    the sentence empty and [lastState] at [NoSound], and call no handler but
    the audio-state one: silence before the first symbol writes no
    delimiter. *)
Theorem silence_alone_keeps_empty_sentence
  (samples : list (float * float)) (m : MicToMorseCode) :
  lastState m = NoSound ->
  morseSentence m = "" ->
  Forall (fun s => signalPresent m (snd s) = false) samples ->
  morseSentence (performAll m (ticksOf samples)) = "" /\
  lastState (performAll m (ticksOf samples)) = NoSound /\
  growsBy isAudioEvent (fired m) (fired (performAll m (ticksOf samples))).
Proof.
  unfold performAll. revert m.
  induction samples as [|[t level] samples IH]; intros m L E F; simpl.
  { split; [exact E|]. split; [exact L | apply growsBy_refl]. }
  inversion F as [|? ? P F']; subst. simpl in P.
  assert (Eq : onMicTime m t level = logEndTime m t).
  { unfold onMicTime. unfold signalPresent in P. now rewrite P. }
  assert (K : morseSentence (logEndTime m t) = morseSentence m /\
              lastState (logEndTime m t) = lastState m /\
              threshold (logEndTime m t) = threshold m /\
              growsBy isAudioEvent (fired m) (fired (logEndTime m t))).
  { destruct (silence_on_empty_sentence m t L E) as [->|[state ->]].
    - repeat split. apply growsBy_refl.
    - rewrite sentence_changeAudioState, lastState_changeAudioState,
        threshold_changeAudioState.
      repeat split. now apply growsBy_changeAudioState. }
  destruct K as (Ks & Kl & Kt & Kg). rewrite Eq.
  destruct (IH (logEndTime m t)) as (I1 & I2 & I3).
  - now rewrite Kl.
  - now rewrite Ks.
  - unfold signalPresent in *. now rewrite Kt.
  - split; [exact I1|]. split; [exact I2|].
    eapply growsBy_trans; [exact Kg | exact I3].
Qed.

Lemma silence_alone_keeps_empty_sentence_witness :
  lastState worked = NoSound /\
  morseSentence worked = "" /\
  Forall (fun s => signalPresent worked (snd s) = false) laterSilence /\
  morseSentence (performAll worked (ticksOf laterSilence)) = "" /\
  lastState (performAll worked (ticksOf laterSilence)) = NoSound /\
  growsBy isAudioEvent (fired worked)
    (fired (performAll worked (ticksOf laterSilence))).
Proof.
  assert (F : Forall (fun s => signalPresent worked (snd s) = false) laterSilence)
    by (repeat constructor).
  exact (conj eq_refl (conj eq_refl (conj F
    (silence_alone_keeps_empty_sentence laterSilence worked eq_refl eq_refl F)))).
Defined.

(** ** Further properties: clearing during a tone *)

(** X14: [clearSentence] empties the sentence and keeps the timing:
    [lastState], [soundStartTime] and [soundStopTime] are as before, so a
    tone in progress when the sentence is cleared still ends with its
    symbol, which is then the whole sentence. *)
Theorem clear_keeps_tone_in_progress (m : MicToMorseCode) (t : float) :
  lastState m = Sound ->
  (t - soundStartTime m <? debounceTime m)%float = false ->
  let onTime := (t - soundStartTime m)%float in
  getMorseString (clearSentence m) = "" /\
  lastState (clearSentence m) = Sound /\
  soundStartTime (clearSentence m) = soundStartTime m /\
  soundStopTime (clearSentence m) = soundStopTime m /\
  ((dashTime m <? onTime)%float = true ->
   getMorseString (logEndTime (clearSentence m) t) = "-") /\
  ((dashTime m <? onTime)%float = false ->
   (dotTime m <? onTime)%float = true ->
   getMorseString (logEndTime (clearSentence m) t) = ".") /\
  ((dashTime m <? onTime)%float = false ->
   (dotTime m <? onTime)%float = false ->
   getMorseString (logEndTime (clearSentence m) t) = "").
Proof.
  intros L D onTime.
  split; [reflexivity|]. split; [exact L|].
  split; [reflexivity|]. split; [reflexivity|].
  assert (E : logEndTime (clearSentence m) t =
              let m1 := set_lastState (set_soundStopTime (clearSentence m) t) NoSound in
              if (dashTime m <? onTime)%float then addCharacter m1 "-"
              else if (dotTime m <? onTime)%float then addCharacter m1 "."
              else m1).
  { now rewrite (logEndTime_toneEnd (clearSentence m) t D L). }
  rewrite E. cbv zeta. unfold getMorseString.
  split; [|split].
  - intros Hdash. rewrite Hdash. now rewrite sentence_addCharacter.
  - intros Hdash Hdot. rewrite Hdash, Hdot. now rewrite sentence_addCharacter.
  - intros Hdash Hdot. now rewrite Hdash, Hdot.
Qed.

Lemma clear_keeps_tone_in_progress_witness :
  lastState duringTone = Sound /\
  (0.9 - soundStartTime duringTone <? debounceTime duringTone)%float = false /\
  getMorseString (clearSentence duringTone) = "" /\
  lastState (clearSentence duringTone) = Sound /\
  getMorseString (logEndTime (clearSentence duringTone) 0.9) = ".".
Proof.
  assert (L : lastState duringTone = Sound) by (vm_compute; reflexivity).
  assert (D : (0.9 - soundStartTime duringTone <? debounceTime duringTone)%float
              = false) by (vm_compute; reflexivity).
  assert (H1 : (dashTime duringTone <? 0.9 - soundStartTime duringTone)%float
               = false) by (vm_compute; reflexivity).
  assert (H2 : (dotTime duringTone <? 0.9 - soundStartTime duringTone)%float
               = true) by (vm_compute; reflexivity).
  pose proof (clear_keeps_tone_in_progress duringTone 0.9 L D) as K.
  cbv zeta in K. destruct K as (A & B & _ & _ & _ & K & _).
  exact (conj L (conj D (conj A (conj B (K H1 H2))))).
Defined.

(** ** Further properties: the audio state at the end of a tone and at a stop *)

(** X15: a sample without signal that arrives while [lastState] is [Sound]
    makes no audio-state change and calls neither end handler, debounced or
    not: the length last shown stays until a later sample. *)
Theorem tone_end_keeps_audio_state (m : MicToMorseCode) (t : float) :
  lastState m = Sound ->
  currentAudioState (logEndTime m t) = currentAudioState m /\
  soundStartTime (logEndTime m t) = soundStartTime m /\
  characterEnds (fired (logEndTime m t)) = characterEnds (fired m) /\
  wordEnds (fired (logEndTime m t)) = wordEnds (fired m).
Proof.
  intros L.
  destruct (t - soundStartTime m <? debounceTime m)%float eqn:D.
  - now rewrite (logEndTime_debounced m t D).
  - rewrite (logEndTime_toneEnd m t D L). cbv zeta.
    destruct (dashTime m <? _)%float;
      [|destruct (dotTime m <? _)%float];
      rewrite ?currentAudioState_addCharacter, ?fired_addCharacter,
        ?characterEnds_app, ?wordEnds_app;
      unfold addCharacter; simpl; rewrite ?app_nil_r; now repeat split.
Qed.

Lemma tone_end_keeps_audio_state_witness :
  lastState duringTone = Sound /\
  currentAudioState (logEndTime duringTone 0.9) = currentAudioState duringTone /\
  soundStartTime (logEndTime duringTone 0.9) = soundStartTime duringTone /\
  characterEnds (fired (logEndTime duringTone 0.9)) = characterEnds (fired duringTone) /\
  wordEnds (fired (logEndTime duringTone 0.9)) = wordEnds (fired duringTone).
Proof.
  assert (L : lastState duringTone = Sound) by (vm_compute; reflexivity).
  exact (conj L (tone_end_keeps_audio_state duringTone 0.9 L)).
Defined.

(** X16: [stopMicrophone] sets the audio state to [NotListening] and
    nothing else: the sentence, [lastState] and both times are kept, also
    through a following [startMicrophone], and a second [stopMicrophone]
    changes nothing and calls no handler. *)
Theorem stopMicrophone_keeps_decoder (m : MicToMorseCode) :
  currentAudioState (stopMicrophone m) = NotListening /\
  stopMicrophone (stopMicrophone m) = stopMicrophone m /\
  currentAudioState (startMicrophone (stopMicrophone m)) = ListeningNoSound /\
  morseSentence (startMicrophone (stopMicrophone m)) = morseSentence m /\
  lastState (startMicrophone (stopMicrophone m)) = lastState m /\
  soundStartTime (startMicrophone (stopMicrophone m)) = soundStartTime m /\
  soundStopTime (startMicrophone (stopMicrophone m)) = soundStopTime m.
Proof.
  unfold stopMicrophone, startMicrophone.
  rewrite !currentAudioState_changeAudioState, !sentence_changeAudioState,
    !lastState_changeAudioState, !soundStartTime_changeAudioState,
    !soundStopTime_changeAudioState.
  repeat split.
  pose proof (changeAudioState_same (changeAudioState m NotListening)) as K.
  now rewrite currentAudioState_changeAudioState in K.
Qed.
